(** * EPI governance core: score engine, trust ledger, policy pipeline, audit log

    A shallow embedding of the Python sources

    - [src/epi/calculator.py]        (EPICalculator),
    - [src/epi/trust_accumulator.py] (TrustAccumulator),
    - [src/policy_engine/validator.py] (PolicyValidator),
    - [src/policy_engine/logger.py]  (ThoughtLogger),

    followed by the properties the specification states about them.

    Numbers are IEEE-754 binary64 values, which is what both CPython's
    [float] and [numpy.float64] are: Rocq's primitive floats have exactly
    this arithmetic (round to nearest even, signed zeros, infinities, one
    NaN), so every definition below computes what the interpreter
    computes, NaN cases included. *)

From Stdlib Require Import ZArith List Bool String Ascii Lia.
From Stdlib Require Import Floats.
From Stdlib Require DecimalString DecimalZ.
Import ListNotations.

Set Warnings "-inexact-float".

(** ** Python scalar semantics used by the sources *)

Module Py.
Local Open Scope float_scope.

(** The dynamic type of a float operand.  Both are binary64; they differ
    in [/]: [float.__truediv__] raises [ZeroDivisionError] on a zero
    divisor, a NumPy scalar returns [inf] or [nan] (with a warning).  An
    operation with at least one NumPy operand is NumPy's. *)
Inductive num : Type :=
| PyF (x : float)    (* a CPython float *)
| NpF (x : float).   (* a numpy.float64 *)

Definition val (n : num) : float :=
  match n with PyF x => x | NpF x => x end.

Definition is_np (n : num) : bool :=
  match n with PyF _ => false | NpF _ => true end.

(** [x / y], where [np] tells whether an operand is a NumPy scalar;
    [None] is the raised [ZeroDivisionError]. *)
Definition truediv (np : bool) (x y : float) : option float :=
  if np then Some (x / y)
  else if y =? 0 then None else Some (x / y).

(** Built-in [max(a, b)]: the first argument unless the second is
    strictly greater. *)
Definition max (a b : float) : float := if a <? b then b else a.

(** Built-in [min(a, b)]: the first argument unless the second is
    strictly smaller. *)
Definition min (a b : float) : float := if b <? a then b else a.

(** [a >= b] and [a > b] on floats. *)
Definition ge (a b : float) : bool := b <=? a.
Definition gt (a b : float) : bool := b <? a.

(** [numpy.add.reduce] on a contiguous array of [float64], which is what
    [numpy.mean] sums a list of floats with.  NumPy does not add from left
    to right: its [pairwise_sum] adds fewer than eight elements in order,
    up to [128] elements in eight interleaved accumulators that are then
    added as a tree, the elements left over after the last full block of
    eight in order onto that, and a longer array as the sum of the sums
    of its two halves, the first half a multiple of eight long. *)
Record lanes := {
  r0 : float; r1 : float; r2 : float; r3 : float;
  r4 : float; r5 : float; r6 : float; r7 : float
}.

(** The unrolled loop [r[j] += a[i + j]] over the full blocks of eight;
    what comes back with the accumulators is the rest, fewer than eight
    elements. *)
Fixpoint accumulate (r : lanes) (a : list float) : lanes * list float :=
  match a with
  | a0 :: a1 :: a2 :: a3 :: a4 :: a5 :: a6 :: a7 :: rest =>
      accumulate
        {| r0 := r0 r + a0; r1 := r1 r + a1; r2 := r2 r + a2;
           r3 := r3 r + a3; r4 := r4 r + a4; r5 := r5 r + a5;
           r6 := r6 r + a6; r7 := r7 r + a7 |}
        rest
  | _ => (r, a)
  end.

(** [pairwise_sum] on at most [128] elements. *)
Definition block_sum (a : list float) : float :=
  match a with
  | a0 :: a1 :: a2 :: a3 :: a4 :: a5 :: a6 :: a7 :: rest =>
      let (r, tail) :=
        accumulate
          {| r0 := a0; r1 := a1; r2 := a2; r3 := a3;
             r4 := a4; r5 := a5; r6 := a6; r7 := a7 |}
          rest in
      fold_left add tail
        (((r0 r + r1 r) + (r2 r + r3 r)) + ((r4 r + r5 r) + (r6 r + r7 r)))
  | _ => fold_left add a 0
  end.

(** [pairwise_sum]; [depth] bounds the number of nested halvings, and the
    length of the list is always enough (see [pairwise_sum_depth]). *)
Fixpoint pairwise_sum (depth : nat) (a : list float) : float :=
  let n := List.length a in
  match depth with
  | O => block_sum a
  | S depth =>
      if (n <=? 128)%nat then block_sum a
      else
        let n2 := (n / 2)%nat in
        let n2 := (n2 - n2 mod 8)%nat in
        pairwise_sum depth (firstn n2 a) + pairwise_sum depth (skipn n2 a)
  end.

(** The reduction starts from the identity [0.0] of [add] and adds the
    pairwise sum of the whole array to it. *)
Definition np_sum (l : list float) : float :=
  0 + pairwise_sum (List.length l) l.

(** [numpy.mean] of a list of floats: the sum divided by the count, both
    in binary64; on the empty list this is [0.0 / 0], i.e. [nan]. *)
Definition np_mean (l : list float) : float :=
  np_sum l / of_uint63 (Uint63.of_Z (Z.of_nat (List.length l))).
End Py.

(** ** [src/epi/calculator.py] *)

Module Calculator.
Import Py.
Local Open Scope float_scope.

(** [PHI = (np.sqrt(5) - 1) / 2] *)
Definition PHI : float := (sqrt 5 - 1) / 2.

(** [GOLDEN_RATIO = (1 + np.sqrt(5)) / 2] *)
Definition GOLDEN_RATIO : float := (1 + sqrt 5) / 2.

Record EPIScores := {
  profit : num;
  ethics : num;
  violations : list float;
  stakeholder_sentiment : float   (* default 0.5 *)
}.

Definition mkScores (p e : num) (v : list float) : EPIScores :=
  {| profit := p; ethics := e; violations := v;
     stakeholder_sentiment := 0.5 |}.

Record EPICalculator := {
  threshold : float;    (* default 0.7 *)
  phi_weight : float    (* default 1.0 *)
}.

Definition default_calculator : EPICalculator :=
  {| threshold := 0.7; phi_weight := 1.0 |}.

(** [harmonic_mean(p, e)] *)
Definition harmonic_mean (p e : num) : option float :=
  if (val p =? 0) || (val e =? 0) then Some 0
  else truediv (is_np p || is_np e) (2 * val p * val e) (val p + val e).

(** [balance_penalty(self, p, e)] *)
Definition balance_penalty (self : EPICalculator) (p e : float) : float :=
  let imbalance := abs (p - e) in
  let penalty := 1 - (phi_weight self * PHI * imbalance) in
  max 0 penalty.

(** [trust_accumulator(violations, initial_trust=1.0)]: the loop, with
    its early [return 0.0]. *)
Fixpoint trust_accumulator (violations : list float) (trust : float) : float :=
  match violations with
  | [] => trust
  | delta :: rest =>
      let trust := trust * (1 - delta) in
      if trust <? 1e-6 then 0 else trust_accumulator rest trust
  end.

(** [golden_ratio_deviation(self, p, e)] *)
Definition golden_ratio_deviation (p e : float) : float :=
  if e =? 0 then infinity
  else
    let ratio := p / e in
    let dev_phi := abs (ratio - GOLDEN_RATIO) in
    let dev_inv_phi := abs (ratio - (1 / GOLDEN_RATIO)) in
    min dev_phi dev_inv_phi.

(** The [reason] entry of the trace.  The last rejection text is the
    f-string ['rejected: EPI {epi:.3f} below threshold {threshold}'];
    the constructor keeps the two numbers it prints. *)
Inductive reason : Type :=
| Approved             (* 'approved' *)
| HarmonicMeanTooLow   (* 'rejected: harmonic mean too low (profit or ethics insufficient)' *)
| Imbalance            (* 'rejected: imbalance between profit and ethics' *)
| TrustCompromised     (* 'rejected: trust compromised by violations' *)
| BelowThreshold (epi threshold : float).

Record EPITrace := {
  t_hmean : float;
  t_balance_penalty : float;
  t_trust : float;
  t_epi : float;
  t_golden_ratio_deviation : float;
  t_stakeholder_sentiment : option float;
  t_threshold : float;
  t_reason : reason
}.

(** [compute_epi(self, scores, include_sentiment=False)]; [None] when
    [harmonic_mean] raises. *)
Definition compute_epi (self : EPICalculator) (scores : EPIScores)
    (include_sentiment : bool) : option (float * bool * EPITrace) :=
  match harmonic_mean (profit scores) (ethics scores) with
  | None => None
  | Some hmean =>
      let penalty :=
        balance_penalty self (val (profit scores)) (val (ethics scores)) in
      let trust := trust_accumulator (violations scores) 1.0 in
      let epi := hmean * penalty * trust in
      let epi :=
        if include_sentiment then epi * stakeholder_sentiment scores
        else epi in
      let gr_deviation :=
        golden_ratio_deviation (val (profit scores)) (val (ethics scores)) in
      let is_valid := ge epi (threshold self) in
      let reason :=
        if negb is_valid then
          if hmean <? 0.5 then HarmonicMeanTooLow
          else if penalty <? 0.7 then Imbalance
          else if trust <? 0.5 then TrustCompromised
          else BelowThreshold epi (threshold self)
        else Approved in
      Some (epi, is_valid,
            {| t_hmean := hmean;
               t_balance_penalty := penalty;
               t_trust := trust;
               t_epi := epi;
               t_golden_ratio_deviation := gr_deviation;
               t_stakeholder_sentiment :=
                 if include_sentiment
                 then Some (stakeholder_sentiment scores) else None;
               t_threshold := threshold self;
               t_reason := reason |})
  end.
End Calculator.

(** ** [src/epi/trust_accumulator.py] *)

Module TrustLedger.
Local Open Scope float_scope.

Record ViolationRecord := {
  severity : float;
  timestamp : Z;
  description : string
}.

Record TrustAccumulator := {
  initial_trust : float;
  min_threshold : float;
  current_trust : float;
  violations : list ViolationRecord
}.

(** [__init__(self, initial_trust=1.0, min_threshold=0.1)] *)
Definition init (initial_trust min_threshold : float) : TrustAccumulator :=
  {| initial_trust := initial_trust;
     min_threshold := min_threshold;
     current_trust := initial_trust;
     violations := [] |}.

(** [record_violation(self, violation)]: the updated object and the
    returned trust. *)
Definition record_violation (self : TrustAccumulator) (violation : ViolationRecord)
    : TrustAccumulator * float :=
  let violations := violations self ++ [violation] in
  let penalty := 1 - severity violation in
  let current_trust := current_trust self * penalty in
  let current_trust :=
    if current_trust <? min_threshold self then 0 else current_trust in
  ({| initial_trust := initial_trust self;
      min_threshold := min_threshold self;
      current_trust := current_trust;
      violations := violations |},
   current_trust).

(** [compute_trust(self, violations)]; stateless. *)
Fixpoint compute_trust_from (min_threshold : float) (violations : list float)
    (trust : float) : float :=
  match violations with
  | [] => trust
  | severity :: rest =>
      let trust := trust * (1 - severity) in
      if trust <? min_threshold then 0
      else compute_trust_from min_threshold rest trust
  end.

Definition compute_trust (self : TrustAccumulator) (violations : list float) : float :=
  compute_trust_from (min_threshold self) violations (initial_trust self).

Record HistoryEntry := {
  h_timestamp : Z;
  h_trust : float;
  h_violation : string;
  h_severity : float
}.

(** [get_trust_history(self)]: replays the decay over the stored
    violations; the object is not changed. *)
Fixpoint trust_history_from (min_threshold : float) (vs : list ViolationRecord)
    (trust : float) : list HistoryEntry :=
  match vs with
  | [] => []
  | v :: rest =>
      let trust := trust * (1 - severity v) in
      let trust := if trust <? min_threshold then 0 else trust in
      {| h_timestamp := timestamp v; h_trust := trust;
         h_violation := description v; h_severity := severity v |}
      :: trust_history_from min_threshold rest trust
  end.

Definition get_trust_history (self : TrustAccumulator) : list HistoryEntry :=
  trust_history_from (min_threshold self) (violations self) (initial_trust self).

(** [reset(self, new_trust=None)] *)
Definition reset (self : TrustAccumulator) (new_trust : option float)
    : TrustAccumulator :=
  {| initial_trust := initial_trust self;
     min_threshold := min_threshold self;
     current_trust :=
       match new_trust with Some t => t | None => initial_trust self end;
     violations := [] |}.

(** A sequence of [record_violation] calls: the final object and the
    trust each call returned, in call order. *)
Fixpoint record_all (self : TrustAccumulator) (vs : list ViolationRecord)
    : TrustAccumulator * list float :=
  match vs with
  | [] => (self, [])
  | v :: rest =>
      let '(self1, t) := record_violation self v in
      let '(self2, ts) := record_all self1 rest in
      (self2, t :: ts)
  end.
End TrustLedger.

(** ** [src/policy_engine/validator.py] *)

Module Validator.
Import Py.
Local Open Scope float_scope.

(** A Python value, for the entries of an intent that the code never
    inspects beyond their presence. *)
Inductive pyval : Type :=
| VNone
| VBool (b : bool)
| VInt (z : Z)
| VFloat (x : float)
| VStr (s : string).

(** Python truth value. *)
Definition truthy (v : pyval) : bool :=
  match v with
  | VNone => false
  | VBool b => b
  | VInt z => negb (Z.eqb z 0)
  | VFloat x => negb (x =? 0)
  | VStr s => negb (String.eqb s EmptyString)
  end.

(** The intent dictionary, by the keys [validate_intent] reads, each
    with the type the API schema ([IntentInput]) gives it; [None] is an
    absent key.  A dict keeps insertion order, so [ethics_factors] is a
    list of items.  Other keys (['action'], ['metadata'], ...) are never
    read. *)
Record Intent := {
  sanctioned : option pyval;
  exposure_ratio : option float;
  ethics_factors : option (list (string * float));
  roi_proxy : option float;
  past_violations : option (list float)
}.

(** [d.get(key, default)] *)
Definition get {A : Type} (entry : option A) (default : A) : A :=
  match entry with Some v => v | None => default end.

Record PolicyValidator := { epi_calc : Calculator.EPICalculator }.

(** [__init__]: [self.epi_calc = EPICalculator()] *)
Definition new_validator : PolicyValidator :=
  {| epi_calc := Calculator.default_calculator |}.

(** The returned dict: the compliance branch has only ['approved'] and
    ['reason']. *)
Record Decision := {
  approved : bool;
  reason : string;
  epi_trace : option Calculator.EPITrace;
  risk_score : option float
}.

(** Line 21: [risk_score = 1.0 - min(intent.get('exposure_ratio', 0), 1.0)] *)
Definition intent_risk_score (intent : Intent) : float :=
  1.0 - min (get (exposure_ratio intent) 0) 1.0.

(** Line 24: [ethics = np.mean(list(intent.get('ethics_factors', {}).values()))] *)
Definition intent_ethics (intent : Intent) : float :=
  np_mean (map snd (get (ethics_factors intent) [])).

(** Lines 24-28: the [EPIScores] handed to [compute_epi]. *)
Definition intent_scores (intent : Intent) : Calculator.EPIScores :=
  let ethics := intent_ethics intent in
  let profit := get (roi_proxy intent) 0.0 in
  let violations := get (past_violations intent) [] in
  Calculator.mkScores (PyF profit) (NpF ethics) violations.

(** [validate_intent(self, intent)]; [None] would be an exception raised
    by [compute_epi]. *)
Definition validate_intent (self : PolicyValidator) (intent : Intent)
    : option Decision :=
  match sanctioned intent with
  | Some _ =>
      Some {| approved := false; reason := "Compliance fail";
              epi_trace := None; risk_score := None |}
  | None =>
      let risk_score := intent_risk_score intent in
      let scores := intent_scores intent in
      match Calculator.compute_epi (epi_calc self) scores false with
      | None => None
      | Some (epi, epi_valid, epi_trace) =>
          let approved := epi_valid && gt risk_score 0.5 in
          Some {| approved := approved;
                  epi_trace := Some epi_trace;
                  risk_score := Some risk_score;
                  reason :=
                    if negb epi_valid then "EPI rejection"
                    else if risk_score <=? 0.5 then "Risk exceed"
                    else "Approved" |}
      end
  end.
End Validator.

(** ** [src/epi/calculator.py]: the grid search *)

Module Optimizer.
Import Py Calculator.
Local Open Scope float_scope.

(** [np.linspace(start, stop, num)] for [num >= 2] and a non-zero step:
    the points [i * step + start] with [step = (stop - start) / (num - 1)],
    the last one replaced by [stop] itself. *)
Definition float_of_nat (n : nat) : float :=
  of_uint63 (Uint63.of_Z (Z.of_nat n)).

Definition np_linspace (start stop : float) (num : nat) : list float :=
  let step := (stop - start) / float_of_nat (num - 1) in
  map (fun i => float_of_nat i * step + start) (seq 0 (num - 1)) ++ [stop].

(** The three variables the loop of [optimize_for_golden_ratio] updates. *)
Record Best := {
  best_profit : float;
  best_epi : float;
  best_deviation : float
}.

Definition initial_best : Best :=
  {| best_profit := 0.0; best_epi := 0.0; best_deviation := infinity |}.

(** The index [compute_epi] gives profit [p]: [p] comes from the NumPy
    grid, so the call cannot raise; [0] stands for the unreachable
    [None]. *)
Definition epi_at (self : EPICalculator) (current_ethics : num)
    (violations : list float) (p : float) : float :=
  match compute_epi self (mkScores (NpF p) current_ethics violations) false with
  | Some (epi, _, _) => epi
  | None => 0
  end.

(** One iteration of the loop. *)
Definition search_step (self : EPICalculator) (target_epi : float)
    (current_ethics : num) (violations : list float) (best : Best) (p : float)
    : Best :=
  let epi := epi_at self current_ethics violations p in
  let deviation := golden_ratio_deviation p (val current_ethics) in
  if (abs (epi - target_epi) <? 0.05) && (deviation <? best_deviation best)
  then {| best_profit := p; best_epi := epi; best_deviation := deviation |}
  else best.

Definition search (self : EPICalculator) (target_epi : float)
    (current_ethics : num) (violations : list float) (grid : list float)
    : Best :=
  fold_left (search_step self target_epi current_ethics violations) grid
    initial_best.

Record Optimum := {
  optimal_profit : float;
  achieved_epi : float;
  o_golden_ratio_deviation : float;
  profit_ethics_ratio : float;
  ideal_ratio : float
}.

(** [optimize_for_golden_ratio(self, target_epi, current_ethics,
    violations)].  The unused [trust = self.trust_accumulator(violations)]
    has no effect.  The ratio is the integer [0] when [current_ethics] is
    not positive. *)
Definition optimize_for_golden_ratio (self : EPICalculator)
    (target_epi : float) (current_ethics : num) (violations : list float)
    : Optimum :=
  let best :=
    search self target_epi current_ethics violations
      (np_linspace 0.1 1.0 100) in
  {| optimal_profit := best_profit best;
     achieved_epi := best_epi best;
     o_golden_ratio_deviation := best_deviation best;
     profit_ethics_ratio :=
       if gt (val current_ethics) 0
       then best_profit best / val current_ethics else 0;
     ideal_ratio := GOLDEN_RATIO |}.
End Optimizer.

(** ** [src/policy_engine/logger.py] *)

Module Logger.
Local Open Scope string_scope.

(** A JSON-shaped Python value, for the [Dict[str, Any]] fields. *)
#[warnings="-register-all"]
Inductive json : Type :=
| JNull
| JBool (b : bool)
| JInt (z : Z)
| JFloat (x : float)
| JStr (s : string)
| JList (l : list json)
| JDict (d : list (string * json)).

Record ThoughtRecord := {
  timestamp : Z;
  agent_id : string;
  action : string;
  reasoning : string;
  epi_trace : list (string * json);
  inputs : list (string * json);
  outputs : list (string * json);
  metadata : list (string * json)
}.

(** What a file of the log directory holds.  A file written by
    [log_thought] holds [json.dumps(asdict(record))]; [json.load] and the
    [ThoughtRecord] constructor read the record back from it (its dictionaries
    with their keys sorted), so the file is represented by the record.
    Any other file is kept as its text; reading it as a record raises. *)
Inductive file : Type :=
| RecordFile (r : ThoughtRecord)
| OtherFile (content : string).

(** The log directory: file names with their contents, each name once. *)
Definition directory : Type := list (string * file).

(** [open(path, "w")] and [write]: the file is created, or replaced. *)
Fixpoint write_file (name : string) (f : file) (fs : directory) : directory :=
  match fs with
  | [] => [(name, f)]
  | (n, g) :: rest =>
      if String.eqb n name then (name, f) :: rest
      else (n, g) :: write_file name f rest
  end.

Fixpoint read_file (name : string) (fs : directory) : option file :=
  match fs with
  | [] => None
  | (n, g) :: rest => if String.eqb n name then Some g else read_file name rest
  end.

(** [str(n)] for an integer. *)
Definition str_int (z : Z) : string :=
  DecimalString.NilEmpty.string_of_int (Z.to_int z).

Definition ends_with (suffix s : string) : bool :=
  (String.length suffix <=? String.length s)%nat
  && String.eqb
       (substring (String.length s - String.length suffix)
          (String.length suffix) s)
       suffix.

(** [self.log_dir.glob("*.json")] *)
Definition glob_json (fs : directory) : directory :=
  filter (fun e => ends_with ".json" (fst e)) fs.

(** [sorted(..., reverse=True)] on paths of one directory: by name,
    greatest first, equal names in their given order. *)
Fixpoint insert_desc (x : string * file) (l : directory) : directory :=
  match l with
  | [] => [x]
  | y :: rest =>
      if String.leb (fst y) (fst x) then x :: y :: rest
      else y :: insert_desc x rest
  end.

Definition sorted_desc (l : directory) : directory :=
  fold_right insert_desc [] l.

(** The slice [l[:limit]]: a negative [limit] counts from the end. *)
Definition py_take {A : Type} (limit : Z) (l : list A) : list A :=
  if (0 <=? limit)%Z then firstn (Z.to_nat limit) l
  else firstn (List.length l - Z.to_nat (- limit)) l.

(** Truth value of an [Optional[str]]: [None] and the empty string are
    false. *)
Definition str_truthy (s : option string) : bool :=
  match s with
  | None => false
  | Some s => negb (String.eqb s "")
  end.

Definition str_ne (a : string) (b : option string) : bool :=
  match b with
  | None => true
  | Some b => negb (String.eqb a b)
  end.

(** The two [continue] tests of [get_thought_history]. *)
Definition passes_filters (agent : option string) (act : option string)
    (r : ThoughtRecord) : bool :=
  negb (str_truthy agent && str_ne (agent_id r) agent)
  && negb (str_truthy act && str_ne (action r) act).

(** [get_thought_history(self, agent_id=None, action=None, limit=100)];
    the messages printed for unreadable files are not modelled. *)
Definition get_thought_history (fs : directory) (agent : option string)
    (act : option string) (limit : Z) : list ThoughtRecord :=
  let log_files := sorted_desc (glob_json fs) in
  flat_map
    (fun e =>
       match snd e with
       | RecordFile r => if passes_filters agent act r then [r] else []
       | OtherFile _ => []
       end)
    (py_take limit log_files).

Record ThoughtLogger := {
  enable_ipfs : bool;
  session_id : string
}.

(** [dict.get(key)] on a list of items. *)
Fixpoint dict_get {A : Type} (key : string) (d : list (string * A)) : option A :=
  match d with
  | [] => None
  | (k, v) :: rest => if String.eqb k key then Some v else dict_get key rest
  end.

(** [d[key] = d.get(key, 0) + 1] *)
Fixpoint bump (key : string) (d : list (string * nat)) : list (string * nat) :=
  match d with
  | [] => [(key, 1%nat)]
  | (k, n) :: rest =>
      if String.eqb k key then (k, S n) :: rest else (k, n) :: bump key rest
  end.

(** The float a Python number converts to in [float + number]; [None] is a
    [TypeError], or the [OverflowError] of an integer too large. *)
Definition float_of_int (z : Z) : option float :=
  let f := SF2Prim (binary_normalize prec emax z 0 false) in
  if is_infinity f then None else Some f.

Definition as_addend (v : json) : option float :=
  match v with
  | JFloat x => Some x
  | JInt z => float_of_int z
  | JBool b => Some (if b then 1%float else 0%float)
  | _ => None
  end.

Record EpiStats := {
  approved : nat;
  rejected : nat;
  avg_epi : float
}.

Record AuditReport := {
  r_session_id : string;
  total_records : nat;
  agent_counts : list (string * nat);
  action_counts : list (string * nat);
  epi_statistics : EpiStats;
  generated_at : Z
}.

(** The variables of the loop of [generate_audit_report]. *)
Record Tally := {
  t_agents : list (string * nat);
  t_actions : list (string * nat);
  t_approved : nat;
  t_rejected : nat;
  t_total_epi : float
}.

Definition empty_tally : Tally :=
  {| t_agents := []; t_actions := []; t_approved := 0; t_rejected := 0;
     t_total_epi := 0%float |}.

(** One iteration; [None] is an exception: adding a non-number, or
    [startswith] on a reason that is not a string. *)
Definition tally_step (t : Tally) (record : ThoughtRecord) : option Tally :=
  let agents := bump (agent_id record) (t_agents t) in
  let actions := bump (action record) (t_actions t) in
  match dict_get "epi" (epi_trace record) with
  | None =>
      Some {| t_agents := agents; t_actions := actions;
              t_approved := t_approved t; t_rejected := t_rejected t;
              t_total_epi := t_total_epi t |}
  | Some epi_value =>
      match as_addend epi_value with
      | None => None
      | Some x =>
          let total := (t_total_epi t + x)%float in
          match dict_get "reason" (epi_trace record) with
          | Some (JStr s) =>
              if prefix "approved" s
              then Some {| t_agents := agents; t_actions := actions;
                           t_approved := S (t_approved t);
                           t_rejected := t_rejected t;
                           t_total_epi := total |}
              else Some {| t_agents := agents; t_actions := actions;
                           t_approved := t_approved t;
                           t_rejected := S (t_rejected t);
                           t_total_epi := total |}
          | None =>
              Some {| t_agents := agents; t_actions := actions;
                      t_approved := t_approved t;
                      t_rejected := S (t_rejected t);
                      t_total_epi := total |}
          | Some _ => None
          end
      end
  end.

Fixpoint tally_all (t : Tally) (records : list ThoughtRecord) : option Tally :=
  match records with
  | [] => Some t
  | r :: rest =>
      match tally_step t r with
      | None => None
      | Some t' => tally_all t' rest
      end
  end.

(** Where [self.log_dir / output_file] leads when it is opened for
    writing. *)
Inductive target : Type :=
| LogFile (name : string)   (* the file [name] of the log directory *)
| Elsewhere                 (* a file outside the log directory *)
| NoFile.                   (* nothing that opens: the [open] raises *)

Fixpoint contains (c : ascii) (s : string) : bool :=
  match s with
  | EmptyString => false
  | String d rest => Ascii.eqb d c || contains c rest
  end.

(** [s.split("/")] *)
Fixpoint components (s : string) : list string :=
  match s with
  | EmptyString => [EmptyString]
  | String c rest =>
      if Ascii.eqb c "/" then EmptyString :: components rest
      else
        match components rest with
        | [] => [String c EmptyString]
        | p :: ps => String c p :: ps
        end
  end.

(** The parts pathlib keeps of a path: the components that are neither
    empty nor ['.'], so that ['./a'], ['a/'] and ['a'] are one path; a
    ['..'] is kept. *)
Definition parts (s : string) : list string :=
  filter (fun p => negb (String.eqb p "") && negb (String.eqb p "."))
    (components s).

Section Library.
(** [hashlib.sha256(s.encode()).hexdigest()] *)
Variable sha256_hexdigest : string -> string.
(** [json.dumps(asdict(record), indent=2, sort_keys=True)] *)
Variable json_dumps : ThoughtRecord -> string.
(** [json.dumps(report, indent=2)], the text [json.dump] writes. *)
Variable json_dumps_report : AuditReport -> string.
(** What the file system makes of a path that leaves the log directory
    (an absolute path, or one that starts with ['..']) when it is opened
    for writing: it may lead anywhere, back into the log directory
    included. *)
Variable outside : string -> target.

(** [_generate_session_id]; [time_repr] is the text of [time.time()]. *)
Definition generate_session_id (time_repr : string) : string :=
  substring 0 16 (sha256_hexdigest time_repr).

(** [__init__] *)
Definition new_logger (time_repr : string) (enable_ipfs : bool) : ThoughtLogger :=
  {| enable_ipfs := enable_ipfs;
     session_id := generate_session_id time_repr |}.

(** [_push_to_ipfs(content)] *)
Definition push_to_ipfs (content : string) : string :=
  "Qm" ++ substring 0 44 (sha256_hexdigest content).

(** The name of the file [log_thought] writes. *)
Definition log_file_name (self : ThoughtLogger) (timestamp : Z) : string :=
  session_id self ++ "_" ++ str_int timestamp ++ ".json".

(** [log_thought(...)], called when [int(time.time())] is [now]: the
    directory afterwards, the returned hash, and the mock CID that is
    printed when IPFS is enabled. *)
Definition log_thought (self : ThoughtLogger) (fs : directory) (now : Z)
    (agent_id action reasoning : string)
    (epi_trace inputs outputs : list (string * json))
    (metadata : option (list (string * json)))
    : directory * string * option string :=
  let record :=
    {| timestamp := now; agent_id := agent_id; action := action;
       reasoning := reasoning; epi_trace := epi_trace; inputs := inputs;
       outputs := outputs;
       metadata := match metadata with Some m => m | None => [] end |} in
  let record_json := json_dumps record in
  let record_hash := sha256_hexdigest record_json in
  let log_file := log_file_name self (timestamp record) in
  let fs := write_file log_file (RecordFile record) fs in
  (fs, record_hash,
   if enable_ipfs self then Some (push_to_ipfs record_json) else None).

(** [verify_thought(record_json, claimed_hash)] *)
Definition verify_thought (record_json claimed_hash : string) : bool :=
  String.eqb (sha256_hexdigest record_json) claimed_hash.

(** [open(self.log_dir / output_file, "w")] on a POSIX file system, in a
    log directory that exists ([__init__] creates it), can be written to
    and holds regular files only; the limits of the file system (the
    length of a name, the space left) are not modelled.  A NUL byte is
    refused by [open].  An absolute
    [output_file] replaces the log directory in the path.  Of a relative
    one pathlib keeps the [parts]: with none left the path is the log
    directory itself, and the parent ['..'] is a directory too
    ([IsADirectoryError]); one part names a file of the log directory,
    created or replaced; a longer path goes through its first part, which
    is missing or a regular file ([FileNotFoundError],
    [NotADirectoryError]), unless it leaves through ['..']. *)
Definition report_target (output_file : string) : target :=
  if contains Ascii.zero output_file then NoFile
  else if prefix "/" output_file then outside output_file
  else
    match parts output_file with
    | [] => NoFile
    | [name] => if String.eqb name ".." then NoFile else LogFile name
    | first :: _ =>
        if String.eqb first ".." then outside output_file else NoFile
    end.

(** [generate_audit_report(output_file)], called when [int(time.time())]
    is [now]: the report and the log directory afterwards; [None] when
    the loop raises or the report file does not open (nothing is written
    then). *)
Definition generate_audit_report (self : ThoughtLogger) (fs : directory)
    (now : Z) (output_file : string) : option (AuditReport * directory) :=
  let all_records := get_thought_history fs None None 10000 in
  match tally_all empty_tally all_records with
  | None => None
  | Some t =>
      let avg :=
        match all_records with
        | [] => 0%float
        | _ =>
            (t_total_epi t
             / of_uint63 (Uint63.of_Z (Z.of_nat (List.length all_records))))%float
        end in
      let report :=
        {| r_session_id := session_id self;
           total_records := List.length all_records;
           agent_counts := t_agents t;
           action_counts := t_actions t;
           epi_statistics :=
             {| approved := t_approved t; rejected := t_rejected t;
                avg_epi := avg |};
           generated_at := now |} in
      match report_target output_file with
      | NoFile => None
      | Elsewhere => Some (report, fs)
      | LogFile name =>
          Some (report,
                write_file name (OtherFile (json_dumps_report report)) fs)
      end
  end.
End Library.
End Logger.

(** * Properties *)

Local Open Scope float_scope.

(** ** Score engine *)

Section ScoreEngine.
Import Py Calculator.

(** The product of the decay factors in input order, with every running
    product kept: [running_products t [v1; ...; vn]] is
    [[t*(1-v1); t*(1-v1)*(1-v2); ...]]. *)
Fixpoint running_products (trust : float) (vs : list float) : list float :=
  match vs with
  | [] => []
  | v :: rest => (trust * (1 - v)) :: running_products (trust * (1 - v)) rest
  end.

Definition decay_product (trust : float) (vs : list float) : float :=
  fold_left (fun t v => t * (1 - v)) vs trust.

(** The decay as the specification words it: the full product, unless
    some running product is below [1e-6], then exactly [0]. *)
Definition trust_decay_spec (vs : list float) (initial : float) : float :=
  if existsb (fun t => t <? 1e-6) (running_products initial vs) then 0
  else decay_product initial vs.

Lemma trust_accumulator_refines_spec (vs : list float) (initial : float) :
  trust_accumulator vs initial = trust_decay_spec vs initial.
Proof.
  revert initial.
  induction vs as [|v rest IH]; intros initial; [reflexivity|].
  unfold trust_decay_spec; simpl.
  destruct (initial * (1 - v) <? 1e-6); simpl; [reflexivity|].
  apply IH.
Qed.

(** C7. [trustDecay []] is the initial trust; [trustDecay [v1..vn]] is
    [initial * (1-v1) * ... * (1-vn)], multiplied in input order, unless a
    running product drops below [1e-6], and then it is exactly [0];
    [trustDecay [0.1; 0.2; 0.15]] is [0.612] to three decimals. *)
Theorem trust_decay_product_or_zero :
  (forall initial, trust_accumulator [] initial = initial)
  /\ (forall vs initial,
        existsb (fun t => t <? 1e-6) (running_products initial vs) = false ->
        trust_accumulator vs initial = decay_product initial vs)
  /\ (forall vs initial,
        existsb (fun t => t <? 1e-6) (running_products initial vs) = true ->
        trust_accumulator vs initial = 0)
  /\ (abs (trust_accumulator [0.1; 0.2; 0.15] 1.0 - 0.612) <? 0.0005) = true.
Proof.
  repeat split.
  - intros vs initial H.
    rewrite trust_accumulator_refines_spec. unfold trust_decay_spec.
    now rewrite H.
  - intros vs initial H.
    rewrite trust_accumulator_refines_spec. unfold trust_decay_spec.
    now rewrite H.
Qed.

(** The rejection reason, first match first, as a function of the three
    factors. *)
Definition rejection_by_precedence (hmean penalty trust epi threshold : float)
    : reason :=
  if hmean <? 0.5 then HarmonicMeanTooLow
  else if penalty <? 0.7 then Imbalance
  else if trust <? 0.5 then TrustCompromised
  else BelowThreshold epi threshold.

(** What [compute_epi] returns, whenever it returns. *)
Lemma compute_epi_inv self scores inc epi valid tr :
  compute_epi self scores inc = Some (epi, valid, tr) ->
  exists hmean,
    harmonic_mean (profit scores) (ethics scores) = Some hmean
    /\ t_hmean tr = hmean
    /\ t_balance_penalty tr =
         balance_penalty self (val (profit scores)) (val (ethics scores))
    /\ t_trust tr = trust_accumulator (violations scores) 1.0
    /\ t_epi tr = epi
    /\ epi = (let base := hmean * t_balance_penalty tr * t_trust tr in
              if inc then base * stakeholder_sentiment scores else base)
    /\ valid = ge epi (threshold self)
    /\ t_threshold tr = threshold self
    /\ t_reason tr =
         if negb valid
         then rejection_by_precedence (t_hmean tr) (t_balance_penalty tr)
                (t_trust tr) epi (threshold self)
         else Approved.
Proof.
  unfold compute_epi.
  destruct (harmonic_mean (profit scores) (ethics scores)) as [hmean|];
    [|discriminate].
  intros H; injection H as <- <- <-.
  exists hmean; simpl. repeat split; reflexivity.
Qed.
End ScoreEngine.

Section ComputeIndex.
Import Py Calculator.

(** Scenario A of the specification. *)
Definition scenario_A : EPIScores := mkScores (PyF 0.9) (PyF 0.8) [].

(** Agreement to three decimals. *)
Definition approx3 (x c : float) : bool := abs (x - c) <? 0.0005.

(** C4, as stated, fails: on [{profit: 0.9, ethics: 0.8, violations: []}]
    with threshold [0.7] the index is not [0.741]; it is more than [0.05]
    away from it. *)
Lemma scenario_A_index_is_not_0_741 :
  exists epi valid tr,
    compute_epi default_calculator scenario_A false = Some (epi, valid, tr)
    /\ approx3 epi 0.741 = false
    /\ (0.05 <? abs (epi - 0.741)) = true.
Proof.
  eexists _, _, _. split; [reflexivity|].
  split; vm_compute; reflexivity.
Qed.

(** C4, amended. On that input the index is [0.795] to three decimals: the
    harmonic mean [0.847] times the balance penalty [0.938] times the
    trust [1.0]; and [valid] is [true]. *)
Theorem scenario_A_index :
  exists epi tr,
    compute_epi default_calculator scenario_A false = Some (epi, true, tr)
    /\ approx3 epi 0.795 = true
    /\ epi = t_hmean tr * t_balance_penalty tr * t_trust tr
    /\ approx3 (t_hmean tr) 0.847 = true
    /\ approx3 (t_balance_penalty tr) 0.938 = true
    /\ t_trust tr = 1.0
    /\ t_reason tr = Approved.
Proof.
  eexists _, _. split; [reflexivity|].
  repeat split; vm_compute; reflexivity.
Qed.

(** C5. Whenever [compute_epi] returns [valid = false], the reason in the
    trace is the first that matches of: harmonic mean [< 0.5]; balance
    penalty [< 0.7]; trust [< 0.5]; below threshold.  The three factors
    are those of the trace, computed from the input. *)
Theorem rejection_reason_precedence self scores inc epi tr :
  compute_epi self scores inc = Some (epi, false, tr) ->
  harmonic_mean (profit scores) (ethics scores) = Some (t_hmean tr)
  /\ t_balance_penalty tr =
       balance_penalty self (val (profit scores)) (val (ethics scores))
  /\ t_trust tr = trust_accumulator (violations scores) 1.0
  /\ t_reason tr =
       (if t_hmean tr <? 0.5 then HarmonicMeanTooLow
        else if t_balance_penalty tr <? 0.7 then Imbalance
        else if t_trust tr <? 0.5 then TrustCompromised
        else BelowThreshold epi (threshold self)).
Proof.
  intros H.
  destruct (compute_epi_inv _ _ _ _ _ _ H)
    as (hmean & Hh & Hth & Hp & Ht & _ & _ & _ & _ & Hr).
  subst hmean. repeat split; assumption.
Qed.

(** Scenario B: profit [0.95], ethics [0.2], no violations. *)
Definition scenario_B : EPIScores := mkScores (PyF 0.95) (PyF 0.2) [].

Lemma rejection_reason_precedence_witness :
  exists epi tr,
    compute_epi default_calculator scenario_B false = Some (epi, false, tr)
    /\ approx3 (t_hmean tr) 0.330 = true
    /\ t_reason tr = HarmonicMeanTooLow.
Proof.
  eexists _, _. split; [reflexivity|]. split; [vm_compute; reflexivity|].
  match goal with
  | |- t_reason ?tr = _ =>
      destruct (rejection_reason_precedence default_calculator scenario_B false
                  _ tr eq_refl) as (_ & _ & _ & ->)
  end.
  reflexivity.
Defined.
End ComputeIndex.

(** ** Policy pipeline *)

Section PairwiseSum.
Import Py.

(** Any depth from the length of the list on gives the same sum: the
    halving always ends in blocks of at most [128] elements. *)
Lemma pairwise_sum_depth d1 : forall d2 a,
  (List.length a <= d1)%nat -> (List.length a <= d2)%nat ->
  pairwise_sum d1 a = pairwise_sum d2 a.
Proof.
  induction d1 as [|d1 IH]; intros d2 a H1 H2.
  - destruct a; [|simpl in H1; lia]. now destruct d2.
  - destruct d2 as [|d2].
    + destruct a; [reflexivity | simpl in H2; lia].
    + cbn [pairwise_sum].
      destruct (List.length a <=? 128)%nat eqn:Hn; [reflexivity|].
      apply Nat.leb_gt in Hn.
      set (n2 := (List.length a / 2 - (List.length a / 2) mod 8)%nat).
      assert (Hn2 : (64 <= n2 < List.length a)%nat).
      { subst n2.
        pose proof (Nat.div_mod_eq (List.length a) 2) as E1.
        pose proof (Nat.mod_upper_bound (List.length a) 2) as B1.
        pose proof (Nat.div_mod_eq (List.length a / 2) 8) as E2.
        pose proof (Nat.mod_upper_bound (List.length a / 2) 8) as B2.
        lia. }
      assert (Hf : (List.length (firstn n2 a) < List.length a)%nat)
        by (rewrite length_firstn; lia).
      assert (Hs : (List.length (skipn n2 a) < List.length a)%nat)
        by (rewrite length_skipn; lia).
      f_equal; apply IH; lia.
Qed.

(** The halving step, at the depth [np_sum] uses. *)
Lemma pairwise_sum_long a :
  (128 < List.length a)%nat ->
  let n2 := (List.length a / 2 - (List.length a / 2) mod 8)%nat in
  np_sum a
  = 0 + (pairwise_sum (List.length (firstn n2 a)) (firstn n2 a)
         + pairwise_sum (List.length (skipn n2 a)) (skipn n2 a)).
Proof.
  intros Hn n2. unfold np_sum.
  destruct (List.length a) as [|d] eqn:Hl; [lia|].
  cbn [pairwise_sum]. rewrite Hl.
  replace (S d <=? 128)%nat with false by (symmetry; apply Nat.leb_gt; lia).
  fold n2.
  assert (Hn2 : (64 <= n2 < S d)%nat).
  { subst n2.
    pose proof (Nat.div_mod_eq (S d) 2) as E1.
    pose proof (Nat.mod_upper_bound (S d) 2) as B1.
    pose proof (Nat.div_mod_eq (S d / 2) 8) as E2.
    pose proof (Nat.mod_upper_bound (S d / 2) 8) as B2.
    lia. }
  do 2 f_equal; apply pairwise_sum_depth;
    rewrite ?length_firstn, ?length_skipn; lia.
Qed.

(** Fewer than eight elements are added from left to right. *)
Lemma np_sum_short a :
  (List.length a < 8)%nat -> np_sum a = 0 + fold_left add a 0.
Proof.
  intros H. unfold np_sum.
  do 8 (destruct a as [|? a]; [reflexivity|]).
  simpl in H. lia.
Qed.

(** From eight elements on the order of the additions shows: the mean of
    sixteen [0.7] is [0.7], where adding from left to right would give
    [0.6999999999999998]; likewise for nine [0.1]. *)
Lemma np_mean_is_not_a_left_fold :
  np_mean (repeat 0.7 16) = 0.7
  /\ fold_left add (repeat 0.7 16) 0 / 16 = 0.6999999999999998
  /\ np_mean (repeat 0.1 9) = 0.1
  /\ fold_left add (repeat 0.1 9) 0 / 9 = 0.09999999999999999.
Proof. repeat split; vm_compute; reflexivity. Qed.
End PairwiseSum.

Section PolicyPipeline.
Import Py Calculator Validator.

(** The decision of the compliance branch. *)
Definition compliance_fail : Decision :=
  {| approved := false; reason := "Compliance fail";
     epi_trace := None; risk_score := None |}.

Definition no_factors (intent : Intent) : Prop :=
  ethics_factors intent = None \/ ethics_factors intent = Some [].

(** An intent with an empty ['ethics_factors'] and nothing else. *)
Definition empty_factors_intent : Intent :=
  {| sanctioned := None; exposure_ratio := None;
     ethics_factors := Some []; roi_proxy := None;
     past_violations := None |}.

Lemma nan_is_not_zero : nan <> 0.
Proof.
  intros H. apply (f_equal is_nan) in H. vm_compute in H. discriminate.
Qed.

(** C1 does not hold of the code: with an empty ['ethics_factors'] the
    ethics handed to [compute_epi] is not [0]; it does not even compare
    equal to [0]. *)
Lemma empty_factors_ethics_is_not_zero :
  sanctioned empty_factors_intent = None
  /\ no_factors empty_factors_intent
  /\ val (ethics (intent_scores empty_factors_intent)) <> 0
  /\ (val (ethics (intent_scores empty_factors_intent)) =? 0) = false.
Proof.
  split; [reflexivity|]. split; [right; reflexivity|].
  split; [|vm_compute; reflexivity].
  change (val (ethics (intent_scores empty_factors_intent))) with (0 / 0).
  replace (0 / 0) with nan by (vm_compute; reflexivity).
  exact nan_is_not_zero.
Qed.

(** What [validate_intent] does past the compliance gate: it scores
    [intent_scores intent] and folds the risk score in. *)
Lemma validate_intent_scored self intent :
  sanctioned intent = None ->
  exists epi valid tr,
    compute_epi (epi_calc self) (intent_scores intent) false
      = Some (epi, valid, tr)
    /\ valid = ge epi (threshold (epi_calc self))
    /\ validate_intent self intent =
         Some {| approved := valid && gt (intent_risk_score intent) 0.5;
                 epi_trace := Some tr;
                 risk_score := Some (intent_risk_score intent);
                 reason :=
                   if negb valid then "EPI rejection"
                   else if intent_risk_score intent <=? 0.5 then "Risk exceed"
                   else "Approved" |}.
Proof.
  intros Hs. unfold validate_intent. rewrite Hs.
  destruct (compute_epi (epi_calc self) (intent_scores intent) false)
    as [[[epi valid] tr]|] eqn:Hc.
  - destruct (compute_epi_inv _ _ _ _ _ _ Hc)
      as (_ & _ & _ & _ & _ & _ & _ & Hv & _).
    exists epi, valid, tr. repeat split; assumption.
  - exfalso. revert Hc.
    unfold compute_epi, harmonic_mean, intent_scores; simpl.
    destruct ((_ =? 0) || (_ =? 0)); discriminate.
Qed.

(** C1, on the code.  For every intent without the key ['sanctioned']
    whose ['ethics_factors'] is absent or empty, the ethics that
    [validate_intent] hands to [compute_epi] is NaN, the mean of the empty
    list: outside the range [[0, 1]] that [EPIScores] documents for it,
    and unlike ['roi_proxy'] and ['exposure_ratio'], which default to
    zero. *)
Theorem no_factors_ethics_is_nan self intent :
  sanctioned intent = None ->
  no_factors intent ->
  intent_scores intent =
    mkScores (PyF (get (roi_proxy intent) 0)) (NpF nan)
      (get (past_violations intent) [])
  /\ exists d epi valid tr,
       validate_intent self intent = Some d
       /\ epi_trace d = Some tr
       /\ compute_epi (epi_calc self)
            (mkScores (PyF (get (roi_proxy intent) 0)) (NpF nan)
               (get (past_violations intent) [])) false
          = Some (epi, valid, tr).
Proof.
  intros Hs Hf.
  assert (He : intent_scores intent =
               mkScores (PyF (get (roi_proxy intent) 0)) (NpF nan)
                 (get (past_violations intent) [])).
  { unfold intent_scores, intent_ethics.
    destruct Hf as [-> | ->]; simpl; repeat f_equal; vm_compute; reflexivity. }
  split; [exact He|].
  destruct (validate_intent_scored self intent Hs)
    as (epi & valid & tr & Hc & _ & Hd).
  rewrite He in Hc.
  eexists _, epi, valid, tr. split; [exact Hd|]. split; [reflexivity|exact Hc].
Qed.

Lemma no_factors_ethics_is_nan_witness :
  ethics (intent_scores empty_factors_intent) = NpF nan.
Proof.
  exact (f_equal ethics
           (proj1 (no_factors_ethics_is_nan new_validator empty_factors_intent
                     eq_refl (or_intror eq_refl)))).
Defined.

(** [validate_intent] always returns: the ethics it passes on is a NumPy
    scalar, so the division in [harmonic_mean] cannot raise. *)
Lemma validate_intent_total self intent :
  exists d, validate_intent self intent = Some d.
Proof.
  unfold validate_intent.
  destruct (sanctioned intent); [eexists; reflexivity|].
  unfold compute_epi, harmonic_mean, intent_scores; simpl.
  destruct ((_ =? 0) || (_ =? 0)); eexists; reflexivity.
Qed.


(** The fixture [valid_intent] of the test-suite. *)
Definition valid_intent : Intent :=
  {| sanctioned := None; exposure_ratio := Some 0.2;
     ethics_factors :=
       Some [("env", 0.9); ("equity", 0.8); ("fairness", 0.85)]%string;
     roi_proxy := Some 0.85;
     past_violations := Some [] |}.


(** On that fixture the decision is an approval. *)
Lemma valid_intent_approved :
  exists d, validate_intent new_validator valid_intent = Some d
            /\ approved d = true /\ reason d = "Approved"%string.
Proof. eexists. split; [reflexivity|]. split; vm_compute; reflexivity. Qed.

(** Sixteen ethics factors of [0.7] with a profit of [0.7] and an
    exposure of [0.2]: the mean is [0.7] exactly, the index is [0.7], and
    the intent is approved at the threshold. *)
Definition sixteen_factors_intent : Intent :=
  {| sanctioned := None; exposure_ratio := Some 0.2;
     ethics_factors :=
       Some [("f01", 0.7); ("f02", 0.7); ("f03", 0.7); ("f04", 0.7);
             ("f05", 0.7); ("f06", 0.7); ("f07", 0.7); ("f08", 0.7);
             ("f09", 0.7); ("f10", 0.7); ("f11", 0.7); ("f12", 0.7);
             ("f13", 0.7); ("f14", 0.7); ("f15", 0.7); ("f16", 0.7)]%string;
     roi_proxy := Some 0.7;
     past_violations := None |}.

Lemma sixteen_factors_approved :
  exists d tr,
    validate_intent new_validator sixteen_factors_intent = Some d
    /\ approved d = true
    /\ reason d = "Approved"%string
    /\ epi_trace d = Some tr
    /\ t_epi tr = 0.7
    /\ val (ethics (intent_scores sixteen_factors_intent)) = 0.7.
Proof.
  eexists _, _. split; [reflexivity|].
  repeat split; vm_compute; reflexivity.
Qed.

(** C8. An intent flagged as sanctioned (the key is present with a true
    value) is rejected with ['Compliance fail'], whatever its other
    entries; the decision carries neither a trace nor a risk score: no
    score was computed. *)
Theorem sanctioned_short_circuit self intent flag :
  sanctioned intent = Some flag ->
  truthy flag = true ->
  validate_intent self intent = Some compliance_fail
  /\ approved compliance_fail = false
  /\ reason compliance_fail = "Compliance fail"%string
  /\ epi_trace compliance_fail = None
  /\ risk_score compliance_fail = None.
Proof.
  intros Hs _. unfold validate_intent. rewrite Hs. repeat split.
Qed.

(** The fixture [sanctioned_intent] of the test-suite. *)
Definition sanctioned_intent : Intent :=
  {| sanctioned := Some (VBool true); exposure_ratio := None;
     ethics_factors := Some [("env", 0.9); ("equity", 0.8)]%string;
     roi_proxy := Some 0.85;
     past_violations := None |}.

Lemma sanctioned_short_circuit_witness :
  validate_intent new_validator sanctioned_intent = Some compliance_fail.
Proof.
  exact (proj1 (sanctioned_short_circuit new_validator sanctioned_intent
                  (VBool true) eq_refl eq_refl)).
Defined.

(** C10. The compliance gate tests the presence of the key, not its
    value: an intent is rejected with the compliance decision exactly when
    it has the key ['sanctioned'], also when the value is [False], [0] or
    [None]. *)
Theorem sanctioned_key_presence self intent :
  (validate_intent self intent = Some compliance_fail
     <-> exists v, sanctioned intent = Some v)
  /\ (forall v, v = VBool false \/ v = VInt 0 \/ v = VNone ->
        truthy v = false
        /\ validate_intent self
             {| sanctioned := Some v;
                exposure_ratio := exposure_ratio intent;
                ethics_factors := ethics_factors intent;
                roi_proxy := roi_proxy intent;
                past_violations := past_violations intent |}
           = Some compliance_fail).
Proof.
  split.
  - split.
    + intros H. destruct (sanctioned intent) as [v|] eqn:Hs; [now exists v|].
      destruct (validate_intent_scored self intent Hs)
        as (epi & valid & tr & _ & _ & Hd).
      rewrite Hd in H. discriminate.
    + intros [v Hs]. unfold validate_intent. now rewrite Hs.
  - intros v [-> | [-> | ->]]; split; reflexivity.
Qed.
End PolicyPipeline.


(** * Further properties of the code *)

(** ** Order facts of binary64 arithmetic

    The trust computations multiply a non-negative number by [1 - s], with
    [s] in [[0, 1]].  In binary64 both operations round, so that such a
    step never increases the number is a fact about rounding: it is
    proved here from the bit-level specification of the primitive floats
    ([SpecFloat]): a rounded result never exceeds a representable upper
    bound of the exact one. *)

Section Binary64.
Local Open Scope Z_scope.

Lemma digits2_pos_size (m : positive) : digits2_pos m = Pos.size m.
Proof. induction m; simpl; congruence. Qed.

Lemma digits2_upper (m : positive) : Zpos m < 2 ^ Zpos (digits2_pos m).
Proof.
  rewrite digits2_pos_size.
  pose proof (Pos.size_gt m) as H.
  apply Pos2Z.pos_lt_pos in H. rewrite Pos2Z.inj_pow in H. exact H.
Qed.

Lemma digits2_lower (m : positive) : 2 ^ (Zpos (digits2_pos m) - 1) <= Zpos m.
Proof.
  rewrite digits2_pos_size.
  pose proof (Pos.size_le m) as H.
  apply Pos2Z.pos_le_pos in H. rewrite Pos2Z.inj_pow in H.
  replace (Zpos (Pos.size m)) with (Z.succ (Zpos (Pos.size m) - 1)) in H by lia.
  rewrite Z.pow_succ_r in H by lia.
  change (Zpos m~0) with (2 * Zpos m) in H. lia.
Qed.

(** shr_1 invariant *)
Definition shr_inv (M j : Z) (mrs : shr_record) : Prop :=
  shr_m mrs = M / 2 ^ j
  /\ (orb (shr_r mrs) (shr_s mrs) = true -> M mod 2 ^ j <> 0).

Lemma shr_1_inv M j mrs :
  0 <= M -> 0 <= j -> shr_inv M j mrs -> shr_inv M (j + 1) (shr_1 mrs).
Proof.
  intros HM Hj [Hm Hrs].
  assert (Hdiv : M / 2 ^ (j + 1) = (M / 2 ^ j) / 2).
  { rewrite Z.pow_add_r by lia. rewrite Z.div_div by lia. reflexivity. }
  assert (Hmod : M mod 2 ^ (j + 1) = 0 ->
                 M mod 2 ^ j = 0 /\ (M / 2 ^ j) mod 2 = 0).
  { intros H0. rewrite Z.pow_add_r in H0 by lia. change (2 ^ 1) with 2 in H0.
    assert (0 < 2 ^ j) by (apply Z.pow_pos_nonneg; lia).
    rewrite Z.rem_mul_r in H0 by lia.
    pose proof (Z.mod_pos_bound M (2 ^ j) ltac:(lia)).
    pose proof (Z.mod_pos_bound (M / 2 ^ j) 2 ltac:(lia)).
    nia. }
  destruct mrs as [m r s]; simpl in *.
  assert (Hnn : 0 <= M / 2 ^ j)
    by (apply Z.div_pos; [lia | apply Z.pow_pos_nonneg; lia]).
  assert (Hcarry : r || s = true -> M mod 2 ^ (j + 1) <> 0)
    by (intros Ht Hz; apply (Hrs Ht); apply (Hmod Hz)).
  assert (Hodd : (M / 2 ^ j) mod 2 = 1 -> M mod 2 ^ (j + 1) <> 0)
    by (intros Ho Hz; destruct (Hmod Hz); lia).
  unfold shr_inv. rewrite Hdiv, <- Hm.
  destruct m as [|[p|p|]|[p|p|]]; simpl; try lia.
  - split; [reflexivity | exact Hcarry].
  - split; [apply Z.div_unique with (r := 1); lia|].
    intros _. apply Hodd. rewrite <- Hm.
    symmetry; apply Z.mod_unique with (q := Zpos p); lia.
  - split; [apply Z.div_unique with (r := 0); lia|].
    exact Hcarry.
  - split; [reflexivity|].
    intros _. apply Hodd. rewrite <- Hm. reflexivity.
Qed.

Lemma iter_shr_1_inv M p : forall j mrs,
  0 <= M -> 0 <= j -> shr_inv M j mrs ->
  shr_inv M (j + Zpos p) (iter_pos shr_1 p mrs).
Proof.
  induction p as [p IH|p IH|]; intros j mrs HM Hj H; simpl.
  - replace (j + Zpos p~1) with (j + 1 + Zpos p + Zpos p) by lia.
    apply IH; [lia | lia |]. apply IH; [lia | lia |].
    now apply shr_1_inv.
  - replace (j + Zpos p~0) with (j + Zpos p + Zpos p) by lia.
    apply IH; [lia | lia |]. now apply IH.
  - now apply shr_1_inv.
Qed.

(** One rounding shift of a non-negative mantissa [M] that starts exact. *)
Lemma shr_exact_spec M E n :
  0 <= M ->
  let '(mrs, e) := shr (Build_shr_record M false false) E n in
  let k := Z.max n 0 in
  e = E + k
  /\ shr_m mrs = M / 2 ^ k
  /\ (round_nearest_even (shr_m mrs) (loc_of_shr_record mrs) = M / 2 ^ k
      \/ (round_nearest_even (shr_m mrs) (loc_of_shr_record mrs) = M / 2 ^ k + 1
          /\ M mod 2 ^ k <> 0)).
Proof.
  intros HM. unfold shr.
  destruct n as [|p|p]; simpl.
  - rewrite Z.div_1_r. repeat split; [lia | now left].
  - assert (Hi : shr_inv M 0 (Build_shr_record M false false)).
    { split; simpl; [now rewrite Z.div_1_r | discriminate]. }
    apply (iter_shr_1_inv M p 0 _ HM (Z.le_refl 0)) in Hi.
    simpl in Hi. destruct Hi as [Hm Hrs].
    replace (Z.max (Zpos p) 0) with (Zpos p) by lia.
    split; [reflexivity|]. split; [exact Hm|].
    destruct (iter_pos shr_1 p _) as [m r s]; simpl in *.
    destruct r, s; simpl; rewrite <- ?Hm; auto.
    destruct (Z.even m); auto.
  - rewrite Z.div_1_r. repeat split; [lia | now left].
Qed.

Abbreviation fexp64 := (fexp prec emax).

Lemma fexp_mono a b : a <= b -> fexp64 a <= fexp64 b.
Proof. unfold fexp, SpecFloat.emin. lia. Qed.

(** A non-negative result of rounding that is at most the positive finite
    float [(mt, et)]. *)
Definition at_most (sx : bool) (mt : positive) (et : Z) (r : spec_float) : Prop :=
  r = S754_zero sx
  \/ exists m e, r = S754_finite sx m e
                 /\ e <= et /\ Zpos m <= Zpos mt * 2 ^ (et - e).

Lemma fexp_digits_bound (m : positive) (e : Z) (mt : positive) (et : Z) :
  e <= et ->
  Zpos m <= Zpos mt * 2 ^ (et - e) ->
  fexp64 (Zpos (digits2_pos mt) + et) <= et ->
  fexp64 (Zpos (digits2_pos m) + e) <= et.
Proof.
  intros He Hm Hc.
  pose proof (digits2_lower m) as Hlo.
  pose proof (digits2_upper mt) as Hup.
  assert (H2 : 0 < 2 ^ (et - e)) by (apply Z.pow_pos_nonneg; lia).
  assert (Hlt : 2 ^ (Zpos (digits2_pos m) - 1)
                < 2 ^ (Zpos (digits2_pos mt) + (et - e))).
  { rewrite Z.pow_add_r by lia. nia. }
  apply Z.pow_lt_mono_r_iff in Hlt; [|lia|lia].
  etransitivity; [|exact Hc]. apply fexp_mono. lia.
Qed.

Lemma round_aux_at_most sx (M : positive) (E : Z) (mt : positive) (et : Z) :
  fexp64 (Zpos (digits2_pos mt) + et) <= et ->
  et <= emax - prec ->
  E <= et ->
  Zpos M <= Zpos mt * 2 ^ (et - E) ->
  at_most sx mt et (binary_round_aux prec emax sx (Zpos M) E loc_Exact).
Proof.
  intros Hc Hmax HE HM.
  unfold binary_round_aux, shr_fexp. simpl shr_record_of_loc.
  set (n1 := fexp64 (Zdigits2 (Zpos M) + E) - E).
  pose proof (shr_exact_spec (Zpos M) E n1 ltac:(lia)) as H1.
  destruct (shr _ E n1) as [mrs1 e1].
  destruct H1 as (He1 & Hm1 & Hr1).
  set (k1 := Z.max n1 0) in *.
  assert (Hk1 : 0 <= k1) by lia.
  assert (He1t : e1 <= et).
  { subst e1 k1 n1. simpl Zdigits2.
    pose proof (fexp_digits_bound M E mt et HE HM Hc). lia. }
  set (m1 := round_nearest_even (shr_m mrs1) (loc_of_shr_record mrs1)) in *.
  set (T := Zpos mt * 2 ^ (et - e1)).
  assert (Hpow : 2 ^ (et - E) = 2 ^ (et - e1) * 2 ^ k1).
  { rewrite <- Z.pow_add_r by lia. f_equal. lia. }
  assert (H2k : 0 < 2 ^ k1) by (apply Z.pow_pos_nonneg; lia).
  assert (HMT : Zpos M <= T * 2 ^ k1) by (unfold T; rewrite <- Z.mul_assoc, <- Hpow; exact HM).
  assert (Hm1T : 0 <= m1 <= T).
  { assert (0 <= Zpos M / 2 ^ k1) by (apply Z.div_pos; lia).
    destruct Hr1 as [-> | [-> Hne]].
    - split; [lia|]. apply Z.div_le_upper_bound; lia.
    - split; [lia|].
      assert (Zpos M <> T * 2 ^ k1).
      { intros Heq. apply Hne. rewrite Heq. apply Z.mod_mul. lia. }
      assert (Zpos M / 2 ^ k1 < T) by (apply Z.div_lt_upper_bound; lia).
      lia. }
  clearbody m1. clear Hr1 Hm1 HMT Hpow.
  simpl shr_record_of_loc.
  set (n2 := fexp64 (Zdigits2 m1 + e1) - e1).
  pose proof (shr_exact_spec m1 e1 n2 ltac:(lia)) as H2.
  destruct (shr _ e1 n2) as [mrs2 e2].
  destruct H2 as (He2 & Hm2 & _).
  set (k2 := Z.max n2 0) in *.
  assert (H2k2 : 0 < 2 ^ k2) by (apply Z.pow_pos_nonneg; lia).
  rewrite Hm2.
  destruct m1 as [|q|q]; [ | | lia].
  - rewrite Z.div_0_l by lia. now left.
  - assert (He2t : e2 <= et).
    { subst e2 k2 n2. simpl Zdigits2.
      pose proof (fexp_digits_bound q e1 mt et He1t (proj2 Hm1T) Hc). lia. }
    assert (Hpow : 2 ^ (et - e1) = 2 ^ (et - e2) * 2 ^ k2).
    { rewrite <- Z.pow_add_r by lia. f_equal. lia. }
    assert (Hq : Zpos q / 2 ^ k2 <= Zpos mt * 2 ^ (et - e2)).
    { apply Z.div_le_upper_bound; [lia|].
      unfold T in Hm1T. rewrite Hpow in Hm1T. lia. }
    assert (0 <= Zpos q / 2 ^ k2) by (apply Z.div_pos; lia).
    destruct (Zpos q / 2 ^ k2) as [|m|m] eqn:Hdiv; [now left | | lia].
    replace (e2 <=? emax - prec) with true by (symmetry; apply Z.leb_le; lia).
    right. exists m, e2. repeat split; assumption.
Qed.

Abbreviation SFone := (S754_finite false 4503599627370496 (-52)).

(** In [[0, 1]]: [+0], or a positive finite float at most [1]. *)
Definition unit_sf (x : spec_float) : Prop := at_most false 4503599627370496 (-52) x.

Lemma bounded_canonical m e :
  bounded prec emax m e = true ->
  fexp64 (Zpos (digits2_pos m) + e) = e /\ e <= emax - prec.
Proof.
  unfold bounded, canonical_mantissa. intros H.
  apply andb_prop in H. destruct H as [H1 H2].
  apply Z.eqb_eq in H1. apply Z.leb_le in H2. now split.
Qed.

Lemma SFmul_at_most mt et p :
  bounded prec emax mt et = true ->
  unit_sf p ->
  at_most false mt et (SF64mul (S754_finite false mt et) p).
Proof.
  intros Hb [-> | (m & e & -> & He & Hm)]; [now left|].
  destruct (bounded_canonical _ _ Hb) as [Hc Hmax].
  unfold SF64mul, SFmul. simpl xorb.
  apply round_aux_at_most; [lia | exact Hmax | lia |].
  replace (et - (et + e)) with (- e) by lia.
  rewrite Pos2Z.inj_mul.
  assert (H52 : 4503599627370496 * 2 ^ (-52 - e) = 2 ^ (- e)).
  { change 4503599627370496 with (2 ^ 52). rewrite <- Z.pow_add_r by lia.
    f_equal. lia. }
  rewrite H52 in Hm. nia.
Qed.

Lemma iter_xO_pow (d m : positive) :
  Zpos (Pos.iter xO m d) = Zpos m * 2 ^ Zpos d.
Proof.
  induction d as [|d IH] using Pos.peano_ind.
  - simpl. lia.
  - rewrite Pos.iter_succ, Pos2Z.inj_xO, IH, Pos2Z.inj_succ, Z.pow_succ_r by lia.
    lia.
Qed.

Lemma shl_align_spec mx ex ex' :
  let '(mz, ez) := shl_align mx ex ex' in
  ez = Z.min ex ex' /\ Zpos mz = Zpos mx * 2 ^ (ex - ez).
Proof.
  unfold shl_align.
  destruct (ex' - ex) as [|d|d] eqn:Hd.
  - replace (Z.min ex ex') with ex by lia. rewrite Z.sub_diag. simpl. lia.
  - replace (Z.min ex ex') with ex by lia. rewrite Z.sub_diag. simpl. lia.
  - replace (Z.min ex ex') with ex' by lia. split; [reflexivity|].
    rewrite iter_xO_pow. f_equal. f_equal. lia.
Qed.

Lemma SFleb_finite_pos m e mt et :
  SFleb (S754_finite false m e) (S754_finite false mt et) = true ->
  e < et \/ (e = et /\ Zpos m <= Zpos mt).
Proof.
  unfold SFleb, SFcompare.
  change (Pos.compare_cont Eq m mt) with (Pos.compare m mt).
  destruct (Z.compare_spec e et) as [He|He|He].
  - destruct (Pos.compare_spec m mt) as [Hm|Hm|Hm]; intros H.
    + right. split; [exact He | subst m; lia].
    + right. split; [exact He | lia].
    + discriminate H.
  - intros _. now left.
  - intros H. discriminate H.
Qed.

Lemma finite_pos_SFleb m e mt et :
  e < et \/ (e = et /\ Zpos m <= Zpos mt) ->
  SFleb (S754_finite false m e) (S754_finite false mt et) = true.
Proof.
  unfold SFleb, SFcompare.
  change (Pos.compare_cont Eq m mt) with (Pos.compare m mt).
  intros [H | [H1 H2]].
  - apply Z.compare_lt_iff in H. now rewrite H.
  - subst et. rewrite Z.compare_refl.
    destruct (Pos.compare_spec m mt) as [Hm|Hm|Hm]; [reflexivity | reflexivity | lia].
Qed.

Lemma one_value es : es <= -52 -> 4503599627370496 * 2 ^ (-52 - es) = 2 ^ (- es).
Proof.
  intros H. change 4503599627370496 with (2 ^ 52).
  rewrite <- Z.pow_add_r by lia. f_equal. lia.
Qed.

Lemma SFsub_one_unit y :
  valid_binary y = true ->
  SFleb (S754_zero false) y = true ->
  SFleb y SFone = true ->
  unit_sf (SF64sub SFone y).
Proof.
  intros Hv H0 H1.
  destruct y as [s|s| |s ms es].
  - (* 1 - 0 *)
    right. exists 4503599627370496%positive, (-52).
    split; [reflexivity|]. split; [lia|]. rewrite Z.sub_diag. lia.
  - destruct s; discriminate.
  - discriminate.
  - destruct s; [discriminate H0|].
    destruct (bounded_canonical _ _ Hv) as [Hc Hmax].
    apply SFleb_finite_pos in H1.
    assert (Hle : es <= -52 /\ Zpos ms <= 2 ^ (- es)).
    { destruct H1 as [H1 | [-> H1]].
      - split; [lia|].
        pose proof (digits2_upper ms) as Hup.
        assert (Zpos (digits2_pos ms) <= 53).
        { revert Hc. unfold fexp, SpecFloat.emin, prec, emax. lia. }
        assert (2 ^ Zpos (digits2_pos ms) <= 2 ^ (- es))
          by (apply Z.pow_le_mono_r; lia).
        lia.
      - split; [lia|]. change (2 ^ (- -52)) with 4503599627370496. exact H1. }
    destruct Hle as [Hes Hms].
    unfold SF64sub, SFsub. cbv [cond_Zopp].
    replace (Z.min (-52) es) with es by lia.
    pose proof (shl_align_spec 4503599627370496 (-52) es) as Ha1.
    pose proof (shl_align_spec ms es es) as Ha2.
    destruct (shl_align 4503599627370496 (-52) es) as [m1 e1].
    destruct (shl_align ms es es) as [m2 e2].
    destruct Ha1 as [He1 Hm1], Ha2 as [He2 Hm2]. cbv [fst].
    replace (Z.min (-52) es) with es in He1 by lia.
    replace (Z.min es es) with es in He2 by lia. subst e1 e2.
    rewrite Z.sub_diag, Z.mul_1_r in Hm2.
    rewrite one_value in Hm1 by lia.
    rewrite Hm1, Hm2.
    unfold binary_normalize.
    destruct (2 ^ (- es) - Zpos ms) as [|d|d] eqn:Hd; [now left | | lia].
    unfold binary_round.
    pose proof (shl_align_spec d es (fexp64 (Zpos (digits2_pos d) + es))) as Ha.
    destruct (shl_align d es _) as [mz ez]. destruct Ha as [Hez Hmz].
    apply round_aux_at_most; [vm_compute; discriminate | vm_compute; discriminate | lia |].
    rewrite Hmz, one_value by lia.
    replace (- ez) with ((- es) + (es - ez)) by lia.
    rewrite Z.pow_add_r by lia.
    assert (0 < 2 ^ (es - ez)) by (apply Z.pow_pos_nonneg; lia).
    nia.
Qed.

Local Open Scope float_scope.

Lemma Prim2SF_zero : Prim2SF 0 = S754_zero false.
Proof. vm_compute. reflexivity. Qed.

Lemma Prim2SF_one : Prim2SF 1 = SFone.
Proof. vm_compute. reflexivity. Qed.

Lemma Prim2SF_infinity : Prim2SF infinity = S754_infinity false.
Proof. vm_compute. reflexivity. Qed.

(** Zero of either sign, or positive finite. *)
Definition nonneg_finite (x : spec_float) : Prop :=
  (exists s, x = S754_zero s) \/ (exists m e, x = S754_finite false m e).

Lemma float_nonneg_finite t :
  (0 <=? t) = true -> (t <? infinity) = true -> nonneg_finite (Prim2SF t).
Proof.
  rewrite leb_spec, ltb_spec, Prim2SF_zero, Prim2SF_infinity.
  destruct (Prim2SF t) as [s|[|]| |[|] m e]; intros H0 H1;
    try discriminate H0; try discriminate H1.
  - left. now exists s.
  - right. now exists m, e.
Qed.

Lemma unit_nonneg_finite x : unit_sf x -> nonneg_finite x.
Proof.
  intros [-> | (m & e & -> & _)]; [left; now exists false | right; now exists m, e].
Qed.

Lemma float_sub_unit s :
  (0 <=? s) = true -> (s <=? 1) = true -> unit_sf (Prim2SF (1 - s)).
Proof.
  rewrite !leb_spec, Prim2SF_zero, Prim2SF_one, sub_spec, Prim2SF_one.
  intros H0 H1. apply SFsub_one_unit; [apply Prim2SF_valid | exact H0 | exact H1].
Qed.

Lemma at_most_SFleb mt et r :
  at_most false mt et r -> SFleb r (S754_finite false mt et) = true.
Proof.
  intros [-> | (m & e & -> & He & Hm)]; [reflexivity|].
  apply finite_pos_SFleb.
  destruct (Z.eq_dec e et) as [->|Hne]; [right | left; lia].
  split; [reflexivity|]. rewrite Z.sub_diag in Hm. lia.
Qed.

Lemma float_unit_bounds p :
  unit_sf (Prim2SF p) -> (0 <=? p) = true /\ (p <=? 1) = true.
Proof.
  intros H. rewrite !leb_spec, Prim2SF_zero, Prim2SF_one. split.
  - destruct H as [-> | (m & e & -> & _)]; reflexivity.
  - now apply at_most_SFleb.
Qed.

Lemma float_mul_unit t p :
  (0 <=? t) = true -> (t <? infinity) = true -> unit_sf (Prim2SF p) ->
  (t * p <=? t) = true /\ (0 <=? t * p) = true /\ (t * p <? infinity) = true.
Proof.
  intros H0 H1 Hp.
  pose proof (float_nonneg_finite t H0 H1) as Ht.
  pose proof (Prim2SF_valid t) as Hv.
  rewrite !leb_spec, ltb_spec, mul_spec, Prim2SF_zero, Prim2SF_infinity.
  destruct Ht as [[s Ht] | (mt & et & Ht)]; rewrite Ht in *.
  - assert (Hz : SF64mul (S754_zero s) (Prim2SF p) = S754_zero s).
    { destruct Hp as [-> | (m & e & -> & _)]; simpl; now destruct s. }
    rewrite Hz. now destruct s.
  - pose proof (SFmul_at_most mt et (Prim2SF p) Hv Hp) as Hr.
    split; [now apply at_most_SFleb|].
    destruct Hr as [-> | (m & e & -> & _)]; split; reflexivity.
Qed.

Lemma float_zero_mul_unit p : unit_sf (Prim2SF p) -> 0 * p = 0.
Proof.
  intros Hp. apply Prim2SF_inj.
  rewrite mul_spec, Prim2SF_zero.
  destruct Hp as [-> | (m & e & -> & _)]; reflexivity.
Qed.

Lemma at_most_trans (sx : bool) m1 e1 m2 e2 r :
  e1 <= e2 -> (Zpos m1 <= Zpos m2 * 2 ^ (e2 - e1))%Z ->
  at_most sx m1 e1 r -> at_most sx m2 e2 r.
Proof.
  intros He Hm [-> | (m & e & -> & He' & Hm')]; [now left|].
  right. exists m, e. split; [reflexivity|]. split; [lia|].
  replace (e2 - e)%Z with ((e2 - e1) + (e1 - e))%Z by lia.
  rewrite Z.pow_add_r by lia.
  assert (0 < 2 ^ (e1 - e))%Z by (apply Z.pow_pos_nonneg; lia).
  nia.
Qed.

Lemma float_mul_unit_unit t p :
  unit_sf (Prim2SF t) -> unit_sf (Prim2SF p) -> unit_sf (Prim2SF (t * p)).
Proof.
  intros Ht Hp. pose proof (Prim2SF_valid t) as Hv.
  rewrite mul_spec.
  destruct Ht as [Ht | (mt & et & Ht & He & Hm)]; rewrite Ht in *.
  - left. destruct Hp as [-> | (m & e & -> & _)]; reflexivity.
  - apply (at_most_trans false mt et); [exact He | exact Hm |].
    now apply SFmul_at_most.
Qed.
Lemma SFleb_trans_nonneg x y z :
  nonneg_finite x -> nonneg_finite y -> nonneg_finite z ->
  SFleb x y = true -> SFleb y z = true -> SFleb x z = true.
Proof.
  intros [[sx ->] | (mx & ex & ->)] [[sy ->] | (my & ey & ->)]
         [[sz ->] | (mz & ez & ->)] Hxy Hyz;
    try reflexivity; try discriminate Hxy; try discriminate Hyz.
  apply SFleb_finite_pos in Hxy, Hyz. apply finite_pos_SFleb. lia.
Qed.

(** [<=] is transitive on the finite non-negative floats. *)
Lemma float_leb_trans x y z :
  (0 <=? x) = true -> (x <? infinity) = true ->
  (0 <=? y) = true -> (y <? infinity) = true ->
  (0 <=? z) = true -> (z <? infinity) = true ->
  (x <=? y) = true -> (y <=? z) = true -> (x <=? z) = true.
Proof.
  intros Hx0 Hx1 Hy0 Hy1 Hz0 Hz1.
  rewrite !leb_spec.
  apply SFleb_trans_nonneg; now apply float_nonneg_finite.
Qed.

Lemma float_ltb_leb x y : (x <? y) = true -> (x <=? y) = true.
Proof.
  rewrite ltb_spec, leb_spec. unfold SFltb, SFleb.
  destruct (SFcompare (Prim2SF x) (Prim2SF y)) as [[| |]|];
    intros H; first [reflexivity | discriminate H].
Qed.

Lemma float_is_nan x : Prim2SF x = S754_nan -> x = nan.
Proof.
  intros H. apply Prim2SF_inj. rewrite H. vm_compute. reflexivity.
Qed.

(** A zero of either sign, or NaN: what a product with a zero factor can
    be. *)
Definition zero_or_nan (x : spec_float) : Prop :=
  (exists s, x = S754_zero s) \/ x = S754_nan.

Lemma SFmul_zero_or_nan_l x y : zero_or_nan x -> zero_or_nan (SF64mul x y).
Proof.
  intros [[s ->] | ->].
  - destruct y as [sy|sy| |sy my ey]; simpl;
      first [left; eexists; reflexivity | now right].
  - destruct y; now right.
Qed.

Lemma SFmul_zero_or_nan_r x y : zero_or_nan y -> zero_or_nan (SF64mul x y).
Proof.
  intros [[s ->] | ->].
  - destruct x as [sx|sx| |sx mx ex]; simpl;
      first [left; eexists; reflexivity | now right].
  - destruct x; now right.
Qed.

(** Nothing that is zero or NaN reaches a positive threshold. *)
Lemma zero_or_nan_below thr x :
  (0 <? thr) = true -> zero_or_nan (Prim2SF x) -> (thr <=? x) = false.
Proof.
  rewrite ltb_spec, leb_spec, Prim2SF_zero. intros Ht Hx.
  destruct (Prim2SF thr) as [s|[|]| |[|] m e]; try discriminate Ht;
    destruct Hx as [[sx ->] | ->]; reflexivity.
Qed.
End Binary64.

(** ** Trust ledger *)

Section TrustLedgerProperties.
Import TrustLedger.

(** A trust level that is a finite non-negative number. *)
Definition trust_ok (t : float) : Prop :=
  (0 <=? t) = true /\ (t <? infinity) = true.

(** A violation whose severity is in [[0, 1]]. *)
Definition severity_ok (v : ViolationRecord) : Prop :=
  (0 <=? severity v) = true /\ (severity v <=? 1) = true.

(** Every element is at most the one before it, starting from [prev]. *)
Fixpoint non_increasing (prev : float) (ts : list float) : Prop :=
  match ts with
  | [] => True
  | t :: rest => (t <=? prev) = true /\ non_increasing t rest
  end.

(** One call of [record_violation]. *)
Lemma record_violation_step self v :
  trust_ok (current_trust self) -> severity_ok v ->
  current_trust (fst (record_violation self v)) = snd (record_violation self v)
  /\ (snd (record_violation self v) <=? current_trust self) = true
  /\ trust_ok (snd (record_violation self v)).
Proof.
  intros [H0 H1] [Hs0 Hs1]. unfold record_violation; simpl.
  split; [reflexivity|].
  pose proof (float_sub_unit _ Hs0 Hs1) as Hp.
  destruct (float_mul_unit _ _ H0 H1 Hp) as (Hle & Hnn & Hfin).
  destruct (current_trust self * (1 - severity v) <? min_threshold self).
  - split; [exact H0|]. split; reflexivity.
  - split; [exact Hle|]. split; assumption.
Qed.

Lemma record_violation_fields self v :
  initial_trust (fst (record_violation self v)) = initial_trust self
  /\ min_threshold (fst (record_violation self v)) = min_threshold self
  /\ violations (fst (record_violation self v)) = violations self ++ [v].
Proof. repeat split. Qed.

Lemma record_all_cons self v vs :
  record_all self (v :: vs) =
    (fst (record_all (fst (record_violation self v)) vs),
     snd (record_violation self v)
     :: snd (record_all (fst (record_violation self v)) vs)).
Proof.
  cbn [record_all]. destruct (record_violation self v) as [s1 t].
  cbn [fst snd]. destruct (record_all s1 vs) as [s2 ts]. reflexivity.
Qed.

Lemma last_cons_default {A} (x : A) (l : list A) (d d' : A) :
  last (x :: l) d = last (x :: l) d'.
Proof.
  revert x. induction l as [|y l IH]; intros x; [reflexivity|].
  change (last (y :: l) d = last (y :: l) d'). apply IH.
Qed.

(** Trust never recovers under [record_violation]: from a finite
    non-negative trust, a sequence of violations with severities in
    [[0, 1]] returns trusts each of which is at most the one before, and
    all of which are finite, non-negative and at most the trust the
    sequence started from; the object ends with the last returned trust. *)
Theorem record_all_non_increasing self vs :
  trust_ok (current_trust self) ->
  Forall severity_ok vs ->
  non_increasing (current_trust self) (snd (record_all self vs))
  /\ Forall (fun t => trust_ok t /\ (t <=? current_trust self) = true)
       (snd (record_all self vs))
  /\ current_trust (fst (record_all self vs))
     = last (snd (record_all self vs)) (current_trust self).
Proof.
  intros Hok Hvs. revert self Hok.
  induction Hvs as [|v vs Hv _ IH]; intros self Hok.
  - simpl. repeat split. constructor.
  - rewrite record_all_cons. cbn [fst snd].
    destruct (record_violation_step self v Hok Hv) as (Hcur & Hle & Hok1).
    set (s1 := fst (record_violation self v)) in *.
    set (t1 := snd (record_violation self v)) in *.
    assert (Hok1' : trust_ok (current_trust s1)) by (rewrite Hcur; exact Hok1).
    destruct (IH s1 Hok1') as (Hni & Hall & Hlast).
    rewrite Hcur in Hni, Hall, Hlast.
    split; [split; assumption|].
    split.
    + constructor; [split; assumption|].
      eapply Forall_impl; [|exact Hall].
      intros t [Ht Htle]. split; [exact Ht|].
      destruct Ht, Hok1, Hok.
      now apply (float_leb_trans t t1 (current_trust self)).
    + rewrite Hlast.
      destruct (snd (record_all s1 vs)) as [|t ts]; [reflexivity|].
      change (last (t :: ts) t1 = last (t :: ts) (current_trust self)).
      apply last_cons_default.
Qed.

(** The example of [trust_accumulator.py]: severities [0.1], [0.3],
    [0.2]. *)
Definition example_violations : list ViolationRecord :=
  [ {| severity := 0.1; timestamp := 1700000000;
       description := "Minor compliance issue" |};
    {| severity := 0.3; timestamp := 1700000100;
       description := "Moderate risk breach" |};
    {| severity := 0.2; timestamp := 1700000200;
       description := "Ethics violation" |} ].

Lemma example_violations_ok : Forall severity_ok example_violations.
Proof. repeat constructor. Qed.

Lemma record_all_non_increasing_witness :
  non_increasing 1 (snd (record_all (init 1 0.1) example_violations)).
Proof.
  exact (proj1 (record_all_non_increasing (init 1 0.1) example_violations
                  (conj eq_refl eq_refl) example_violations_ok)).
Defined.

(** A trust of exactly [0] is absorbing. *)
Lemma zero_trust_absorbing self vs :
  current_trust self = 0 ->
  Forall severity_ok vs ->
  Forall (fun t => t = 0) (snd (record_all self vs))
  /\ current_trust (fst (record_all self vs)) = 0.
Proof.
  intros H0 Hvs. revert self H0.
  induction Hvs as [|v vs [Hs0 Hs1] _ IH]; intros self H0.
  - simpl. split; [constructor | exact H0].
  - rewrite record_all_cons. cbn [fst snd].
    assert (Ht : snd (record_violation self v) = 0).
    { unfold record_violation; simpl. rewrite H0.
      rewrite (float_zero_mul_unit _ (float_sub_unit _ Hs0 Hs1)).
      now destruct (0 <? min_threshold self). }
    destruct (IH (fst (record_violation self v)) Ht) as [Hall Hfin].
    split; [constructor; assumption | exact Hfin].
Qed.

(** Once a decay step falls below [min_threshold], that call returns
    exactly [0], and so does every later call with a severity in
    [[0, 1]]: trust does not recover without [reset]. *)
Theorem clamped_trust_stays_zero self v vs :
  (current_trust self * (1 - severity v) <? min_threshold self) = true ->
  Forall severity_ok vs ->
  snd (record_violation self v) = 0
  /\ Forall (fun t => t = 0)
       (snd (record_all (fst (record_violation self v)) vs))
  /\ current_trust (fst (record_all self (v :: vs))) = 0.
Proof.
  intros Hc Hvs.
  assert (Ht : snd (record_violation self v) = 0)
    by (unfold record_violation; simpl; now rewrite Hc).
  split; [exact Ht|].
  rewrite record_all_cons. cbn [fst].
  exact (zero_trust_absorbing (fst (record_violation self v)) vs Ht Hvs).
Qed.

(** A severity of [0.95] takes a trust of [1] below the threshold [0.1]. *)
Definition severe_violation : ViolationRecord :=
  {| severity := 0.95; timestamp := 1700000000; description := "Fraud" |}.

Lemma clamped_trust_stays_zero_witness :
  snd (record_violation (init 1 0.1) severe_violation) = 0
  /\ Forall (fun t => t = 0)
       (snd (record_all (fst (record_violation (init 1 0.1) severe_violation))
              example_violations))
  /\ current_trust
       (fst (record_all (init 1 0.1) (severe_violation :: example_violations)))
     = 0.
Proof.
  exact (clamped_trust_stays_zero (init 1 0.1) severe_violation
           example_violations eq_refl example_violations_ok).
Defined.

Lemma record_all_fields self vs :
  violations (fst (record_all self vs)) = violations self ++ vs
  /\ initial_trust (fst (record_all self vs)) = initial_trust self
  /\ min_threshold (fst (record_all self vs)) = min_threshold self.
Proof.
  revert self. induction vs as [|v vs IH]; intros self.
  - simpl. rewrite app_nil_r. repeat split.
  - rewrite record_all_cons. cbn [fst].
    destruct (IH (fst (record_violation self v))) as (Hv & Hi & Hm).
    rewrite Hv, Hi, Hm.
    unfold record_violation; simpl. rewrite <- app_assoc. repeat split.
Qed.

(** The history only grows: a sequence of calls appends its violations,
    in call order, to the stored ones, returns one trust per call, and
    leaves [initial_trust] and [min_threshold] alone. *)
Theorem record_all_appends self vs :
  violations (fst (record_all self vs)) = violations self ++ vs
  /\ List.length (snd (record_all self vs)) = List.length vs
  /\ initial_trust (fst (record_all self vs)) = initial_trust self
  /\ min_threshold (fst (record_all self vs)) = min_threshold self.
Proof.
  destruct (record_all_fields self vs) as (Hv & Hi & Hm).
  repeat split; try assumption.
  clear. revert self. induction vs as [|v vs IH]; intros self; [reflexivity|].
  rewrite record_all_cons. cbn [snd List.length]. now rewrite IH.
Qed.

(** [compute_trust] on the severities predicts what recording the
    violations does: from an object whose trust is still its initial
    trust, the trust after recording violations with severities in
    [[0, 1]] is [compute_trust] of their severities. *)
Lemma record_all_compute_trust_from self vs :
  Forall severity_ok vs ->
  current_trust (fst (record_all self vs))
  = compute_trust_from (min_threshold self) (map severity vs)
      (current_trust self).
Proof.
  intros Hvs. revert self.
  induction Hvs as [|v vs Hv Hvs IH]; intros self; [reflexivity|].
  rewrite record_all_cons. cbn [fst map compute_trust_from].
  destruct (current_trust self * (1 - severity v) <? min_threshold self) eqn:Hc.
  - apply zero_trust_absorbing; [|exact Hvs].
    unfold record_violation; simpl. now rewrite Hc.
  - rewrite IH. unfold record_violation; simpl. now rewrite Hc.
Qed.

(** [compute_trust] predicts [record_violation]: on an object that has
    not decayed yet, recording violations with severities in [[0, 1]]
    leaves the trust that [compute_trust] gives for their severities,
    the clamp to zero included. *)
Theorem compute_trust_predicts_recording self vs :
  current_trust self = initial_trust self ->
  Forall severity_ok vs ->
  current_trust (fst (record_all self vs))
  = compute_trust self (map severity vs).
Proof.
  intros Hinit Hvs. unfold compute_trust. rewrite <- Hinit.
  now apply record_all_compute_trust_from.
Qed.

Lemma compute_trust_predicts_recording_witness :
  current_trust (fst (record_all (init 1 0.1) example_violations))
  = compute_trust (init 1 0.1) (map severity example_violations).
Proof.
  exact (compute_trust_predicts_recording (init 1 0.1) example_violations
           eq_refl example_violations_ok).
Defined.

(** The trust that replaying the stored violations from [t] ends with:
    the loop of [get_trust_history], without the entries. *)
Fixpoint replayed_trust (min_threshold : float) (vs : list ViolationRecord)
    (t : float) : float :=
  match vs with
  | [] => t
  | v :: rest =>
      let t := t * (1 - severity v) in
      replayed_trust min_threshold rest (if t <? min_threshold then 0 else t)
  end.

Lemma trust_history_from_app thr vs1 vs2 t :
  trust_history_from thr (vs1 ++ vs2) t
  = trust_history_from thr vs1 t
    ++ trust_history_from thr vs2 (replayed_trust thr vs1 t).
Proof.
  revert t. induction vs1 as [|v vs1 IH]; intros t; [reflexivity|].
  simpl. now rewrite IH.
Qed.

Lemma replayed_trust_app thr vs1 vs2 t :
  replayed_trust thr (vs1 ++ vs2) t
  = replayed_trust thr vs2 (replayed_trust thr vs1 t).
Proof.
  revert t. induction vs1 as [|v vs1 IH]; intros t; [reflexivity|].
  simpl. now rewrite IH.
Qed.

Lemma record_all_is_replay self vs :
  snd (record_all self vs)
  = map h_trust (trust_history_from (min_threshold self) vs (current_trust self))
  /\ current_trust (fst (record_all self vs))
     = replayed_trust (min_threshold self) vs (current_trust self).
Proof.
  revert self. induction vs as [|v vs IH]; intros self; [split; reflexivity|].
  rewrite record_all_cons. cbn [fst snd].
  destruct (IH (fst (record_violation self v))) as [H1 H2].
  rewrite H1, H2. split; reflexivity.
Qed.

(** [get_trust_history] replays the decay from [initial_trust].  On an
    object whose trust is what that replay ends with (any object that was
    constructed and then only recorded violations), the history after
    further calls is the old history followed by one entry per call,
    carrying the trust the call returned, and its timestamp, description
    and severity; and the object is again such an object. *)
Theorem history_replays_returned_trusts self vs :
  current_trust self
    = replayed_trust (min_threshold self) (violations self) (initial_trust self) ->
  let self' := fst (record_all self vs) in
  map h_trust (get_trust_history self')
    = map h_trust (get_trust_history self) ++ snd (record_all self vs)
  /\ map h_timestamp (get_trust_history self')
     = map h_timestamp (get_trust_history self) ++ map timestamp vs
  /\ map h_violation (get_trust_history self')
     = map h_violation (get_trust_history self) ++ map description vs
  /\ map h_severity (get_trust_history self')
     = map h_severity (get_trust_history self) ++ map severity vs
  /\ current_trust self'
     = replayed_trust (min_threshold self') (violations self')
         (initial_trust self').
Proof.
  intros Hco self'. unfold get_trust_history. subst self'.
  destruct (record_all_fields self vs) as (Hv & Hi & Hm).
  destruct (record_all_is_replay self vs) as [Hts Hcur].
  rewrite Hv, Hi, Hm, trust_history_from_app, !map_app, <- Hco, <- Hts.
  split; [reflexivity|].
  rewrite replayed_trust_app, <- Hco, Hcur.
  assert (Hfields : forall t l,
    map h_timestamp (trust_history_from (min_threshold self) l t)
      = map timestamp l
    /\ map h_violation (trust_history_from (min_threshold self) l t)
       = map description l
    /\ map h_severity (trust_history_from (min_threshold self) l t)
       = map severity l).
  { intros t l. revert t. induction l as [|v l IH]; intros t.
    - repeat split.
    - simpl. destruct (IH (if t * (1 - severity v) <? min_threshold self
                           then 0 else t * (1 - severity v)))
        as (H1 & H2 & H3).
      rewrite H1, H2, H3. repeat split. }
  destruct (Hfields (current_trust self) vs) as (H1 & H2 & H3).
  rewrite H1, H2, H3. repeat split.
Qed.

Lemma history_replays_returned_trusts_witness :
  map h_trust
    (get_trust_history (fst (record_all (init 1 0.1) example_violations)))
  = snd (record_all (init 1 0.1) example_violations).
Proof.
  exact (proj1 (history_replays_returned_trusts (init 1 0.1)
                  example_violations eq_refl)).
Defined.

(** After a [reset] to a trust other than [initial_trust] the history no
    longer tells what happened: the call returns the decay of the new
    trust, the history entry shows the decay of [initial_trust]. *)
Theorem history_after_reset_replays_initial_trust self t v :
  let clamp x := if x <? min_threshold self then 0 else x in
  let self1 := reset self (Some t) in
  get_trust_history self1 = []
  /\ violations self1 = []
  /\ snd (record_violation self1 v) = clamp (t * (1 - severity v))
  /\ map h_trust (get_trust_history (fst (record_violation self1 v)))
     = [clamp (initial_trust self * (1 - severity v))].
Proof. repeat split. Qed.
End TrustLedgerProperties.

(** ** Score engine, further *)

Section ScoreEngineProperties.
Import Py Calculator.

(** A severity in [[0, 1]]. *)
Definition unit_severity (v : float) : Prop :=
  (0 <=? v) = true /\ (v <=? 1) = true.

(** The trust factor is a fraction of the initial trust: with severities
    in [[0, 1]] and a finite non-negative initial trust, the result is
    finite, at least [0] and at most the initial trust; from the default
    [1.0] it lies in [[0, 1]]. *)
Theorem trust_accumulator_range vs initial :
  trust_ok initial ->
  Forall unit_severity vs ->
  trust_ok (trust_accumulator vs initial)
  /\ (trust_accumulator vs initial <=? initial) = true.
Proof.
  intros Hok Hvs. revert initial Hok.
  induction Hvs as [|v vs [Hv0 Hv1] _ IH]; intros initial Hok.
  - split; [exact Hok|]. simpl.
    destruct Hok as [H0 H1].
    rewrite leb_spec.
    destruct (float_nonneg_finite _ H0 H1) as [[s ->] | (m & e & ->)].
    + reflexivity.
    + apply finite_pos_SFleb. right. split; [reflexivity|]. apply Z.le_refl.
  - simpl. destruct Hok as [H0 H1].
    pose proof (float_sub_unit _ Hv0 Hv1) as Hp.
    destruct (float_mul_unit _ _ H0 H1 Hp) as (Hle & Hnn & Hfin).
    destruct (initial * (1 - v) <? 1e-6).
    + split; [split; reflexivity | exact H0].
    + destruct (IH _ (conj Hnn Hfin)) as [[Hr0 Hr1] Hrle].
      split; [split; assumption|].
      now apply (float_leb_trans _ (initial * (1 - v)) initial).
Qed.

Lemma trust_accumulator_range_witness :
  trust_ok (trust_accumulator [0.1; 0.2; 0.15] 1)
  /\ (trust_accumulator [0.1; 0.2; 0.15] 1 <=? 1) = true.
Proof.
  apply (trust_accumulator_range [0.1; 0.2; 0.15] 1).
  - split; reflexivity.
  - repeat constructor.
Defined.

(** The numerical floor: after at least one violation the trust factor is
    exactly [0] or not below [1e-6]; no positive value under the floor is
    ever returned. *)
Theorem trust_accumulator_floor v vs initial :
  trust_accumulator (v :: vs) initial = 0
  \/ (trust_accumulator (v :: vs) initial <? 1e-6) = false.
Proof.
  revert v initial. induction vs as [|w vs IH]; intros v initial.
  - simpl. destruct (initial * (1 - v) <? 1e-6) eqn:H; [now left | now right].
  - change (trust_accumulator (v :: w :: vs) initial)
      with (if initial * (1 - v) <? 1e-6 then 0
            else trust_accumulator (w :: vs) (initial * (1 - v))).
    destruct (initial * (1 - v) <? 1e-6); [now left | apply IH].
Qed.

(** The trace says ['approved'] exactly when the index is valid. *)
Theorem approved_reason_iff_valid self scores inc epi valid tr :
  compute_epi self scores inc = Some (epi, valid, tr) ->
  (valid = true <-> t_reason tr = Approved).
Proof.
  intros H.
  destruct (compute_epi_inv _ _ _ _ _ _ H)
    as (hmean & _ & _ & _ & _ & _ & _ & _ & _ & Hr).
  rewrite Hr. unfold rejection_by_precedence.
  destruct valid; simpl; [tauto|].
  destruct (t_hmean tr <? 0.5); [split; discriminate|].
  destruct (t_balance_penalty tr <? 0.7); [split; discriminate|].
  destruct (t_trust tr <? 0.5); split; discriminate.
Qed.

Lemma approved_reason_iff_valid_witness :
  exists epi tr,
    compute_epi default_calculator scenario_A false = Some (epi, true, tr)
    /\ t_reason tr = Approved.
Proof.
  eexists _, _. split; [reflexivity|].
  match goal with
  | |- t_reason ?tr = _ =>
      exact (proj1 (approved_reason_iff_valid default_calculator scenario_A
                      false _ true tr eq_refl) eq_refl)
  end.
Defined.

(** [compute_epi] raises (the [ZeroDivisionError] of [harmonic_mean])
    exactly when profit and ethics are both CPython floats, neither
    compares equal to zero, and their sum does; with a NumPy operand it
    always returns. *)
Theorem compute_epi_raises_iff self scores inc :
  compute_epi self scores inc = None
  <-> is_np (profit scores) = false
      /\ is_np (ethics scores) = false
      /\ (val (profit scores) =? 0) = false
      /\ (val (ethics scores) =? 0) = false
      /\ (val (profit scores) + val (ethics scores) =? 0) = true.
Proof.
  unfold compute_epi, harmonic_mean, truediv.
  destruct (is_np (profit scores)), (is_np (ethics scores)),
    (val (profit scores) =? 0), (val (ethics scores) =? 0),
    (val (profit scores) + val (ethics scores) =? 0); simpl;
    split; intros H; try discriminate H; try reflexivity;
    try (decompose [and] H; discriminate); repeat split.
Qed.

(** Non-compensation: when profit or ethics is zero, the harmonic mean is
    [0], and no calculator with a positive threshold accepts the scores,
    whatever the other score, the violations and the sentiment are; the
    reason given is the harmonic mean. *)
Theorem zero_score_is_rejected self scores inc :
  (val (profit scores) =? 0) || (val (ethics scores) =? 0) = true ->
  (0 <? threshold self) = true ->
  exists epi tr,
    compute_epi self scores inc = Some (epi, false, tr)
    /\ t_hmean tr = 0
    /\ t_reason tr = HarmonicMeanTooLow.
Proof.
  intros Hz Ht. unfold compute_epi, harmonic_mean. rewrite Hz.
  set (penalty := balance_penalty self _ _).
  set (trust := trust_accumulator _ _).
  set (epi := if inc then _ else _).
  assert (Hepi : zero_or_nan (Prim2SF epi)).
  { assert (H0 : zero_or_nan (Prim2SF (0 * penalty * trust))).
    { rewrite !mul_spec. apply SFmul_zero_or_nan_l, SFmul_zero_or_nan_l.
      left. exists false. apply Prim2SF_zero. }
    subst epi. destruct inc; [|exact H0].
    rewrite mul_spec. now apply SFmul_zero_or_nan_l. }
  assert (Hv : ge epi (threshold self) = false)
    by (unfold ge; now apply zero_or_nan_below).
  exists epi. eexists. rewrite Hv. split; [reflexivity|].
  split; reflexivity.
Qed.

Lemma zero_score_is_rejected_witness :
  exists epi tr,
    compute_epi default_calculator (mkScores (PyF 0.9) (PyF 0) []) false
      = Some (epi, false, tr)
    /\ t_hmean tr = 0
    /\ t_reason tr = HarmonicMeanTooLow.
Proof.
  exact (zero_score_is_rejected default_calculator
           (mkScores (PyF 0.9) (PyF 0) []) false eq_refl eq_refl).
Defined.
End ScoreEngineProperties.

(** ** Binary64: the difference [1 - x] *)

Section Binary64Sub.
Local Open Scope Z_scope.

Abbreviation fexp64' := (fexp prec emax).
Abbreviation SFone' := (S754_finite false 4503599627370496 (-52)).
Abbreviation SFhalf := (S754_finite false 4503599627370496 (-53)).

(** A result that carries the sign [sx]: zero, finite or infinite. *)
Definition signed (sx : bool) (r : spec_float) : Prop :=
  r = S754_zero sx \/ (exists m e, r = S754_finite sx m e)
  \/ r = S754_infinity sx.

Lemma round_aux_signed sx (M : positive) (E : Z) :
  signed sx (binary_round_aux prec emax sx (Zpos M) E loc_Exact).
Proof.
  unfold binary_round_aux, shr_fexp. cbv [shr_record_of_loc].
  set (n1 := fexp64' (Zdigits2 (Zpos M) + E) - E).
  pose proof (shr_exact_spec (Zpos M) E n1 ltac:(lia)) as H1.
  destruct (shr _ E n1) as [mrs1 e1].
  destruct H1 as (_ & _ & Hr1).
  set (m1 := round_nearest_even (shr_m mrs1) (loc_of_shr_record mrs1)) in *.
  assert (Hm1 : 0 <= m1).
  { assert (0 < 2 ^ Z.max n1 0) by (apply Z.pow_pos_nonneg; lia).
    assert (0 <= Zpos M / 2 ^ Z.max n1 0) by (apply Z.div_pos; lia).
    destruct Hr1 as [-> | [-> _]]; lia. }
  clearbody m1.
  set (n2 := fexp64' (Zdigits2 m1 + e1) - e1).
  pose proof (shr_exact_spec m1 e1 n2 Hm1) as H2.
  destruct (shr _ e1 n2) as [mrs2 e2].
  destruct H2 as (_ & Hm2 & _). rewrite Hm2.
  assert (0 < 2 ^ Z.max n2 0) by (apply Z.pow_pos_nonneg; lia).
  assert (0 <= m1 / 2 ^ Z.max n2 0) by (apply Z.div_pos; lia).
  destruct (m1 / 2 ^ Z.max n2 0) as [|m|m]; [now left | | lia].
  destruct (e2 <=? emax - prec); right; [left; now exists m, e2 | now right].
Qed.

Lemma SFsub_one_finite my ey mt et :
  fexp64' (Zpos (digits2_pos mt) + et) <= et ->
  et <= emax - prec ->
  (0 < 2 ^ (- Z.min (-52) ey) - Zpos my * 2 ^ (ey - Z.min (-52) ey) ->
   Z.min (-52) ey <= et
   /\ 2 ^ (- Z.min (-52) ey) - Zpos my * 2 ^ (ey - Z.min (-52) ey)
      <= Zpos mt * 2 ^ (et - Z.min (-52) ey)) ->
  at_most false mt et (SF64sub SFone' (S754_finite false my ey))
  \/ signed true (SF64sub SFone' (S754_finite false my ey)).
Proof.
  intros Hc Hmax Hb.
  unfold SF64sub, SFsub. cbv [cond_Zopp].
  set (ez := Z.min (-52) ey) in *.
  pose proof (shl_align_spec 4503599627370496 (-52) ez) as Ha1.
  pose proof (shl_align_spec my ey ez) as Ha2.
  destruct (shl_align 4503599627370496 (-52) ez) as [m1 e1].
  destruct (shl_align my ey ez) as [m2 e2].
  destruct Ha1 as [He1 Hm1], Ha2 as [He2 Hm2]. cbv [fst].
  replace (Z.min (-52) ez) with ez in * by lia.
  replace (Z.min ey ez) with ez in * by lia. subst e1 e2.
  rewrite one_value in Hm1 by lia.
  rewrite Hm1, Hm2.
  unfold binary_normalize.
  destruct (2 ^ (- ez) - Zpos my * 2 ^ (ey - ez)) as [|d|d] eqn:Hd.
  - left. now left.
  - left. destruct (Hb ltac:(lia)) as [Hez Hle].
    unfold binary_round.
    pose proof (shl_align_spec d ez (fexp64' (Zpos (digits2_pos d) + ez))) as Ha.
    destruct (shl_align d ez _) as [mz ez']. destruct Ha as [Hez' Hmz].
    apply round_aux_at_most; [exact Hc | exact Hmax | lia |].
    rewrite Hmz.
    replace (et - ez') with ((et - ez) + (ez - ez')) by lia.
    rewrite Z.pow_add_r by lia.
    assert (0 < 2 ^ (ez - ez')) by (apply Z.pow_pos_nonneg; lia).
    nia.
  - right. unfold binary_round.
    destruct (shl_align d ez _) as [mz ez'].
    apply round_aux_signed.
Qed.

(** NaN, or a number that is not negative. *)
Definition nonneg_or_nan (x : spec_float) : Prop :=
  x = S754_nan \/ signed false x.

(** The shapes of a float that is [>= 0]. *)
Lemma float_nonneg_cases (x : float) :
  (0 <=? x)%float = true ->
  (exists s, Prim2SF x = S754_zero s)
  \/ (exists m e, Prim2SF x = S754_finite false m e)
  \/ Prim2SF x = S754_infinity false.
Proof.
  rewrite leb_spec, Prim2SF_zero.
  destruct (Prim2SF x) as [s|[|]| |[|] m e]; intros H; try discriminate H.
  - left. now exists s.
  - right. now right.
  - right. left. now exists m, e.
Qed.

(** [1 - x] for [x >= 0] is in [[0, 1]], or carries the minus sign. *)
Lemma float_one_sub_nonneg (x : float) :
  (0 <=? x)%float = true ->
  unit_sf (Prim2SF (1 - x)%float) \/ signed true (Prim2SF (1 - x)%float).
Proof.
  intros H. rewrite sub_spec, Prim2SF_one.
  destruct (float_nonneg_cases x H) as [[s Hx] | [(m & e & Hx) | Hx]];
    rewrite Hx.
  - left. right. exists 4503599627370496%positive, (-52).
    split; [reflexivity|]. split; [lia|]. rewrite Z.sub_diag. lia.
  - apply SFsub_one_finite; [vm_compute; discriminate | vm_compute; discriminate|].
    intros HD. split; [lia|]. rewrite one_value by lia. lia.
  - right. right. now right.
Qed.

Lemma Prim2SF_half : Prim2SF 0.5%float = SFhalf.
Proof. vm_compute. reflexivity. Qed.

(** [1 - x] for [x >= 0.5] is at most [0.5], or carries the minus sign. *)
Lemma float_one_sub_half (x : float) :
  (0.5 <=? x)%float = true ->
  at_most false 4503599627370496 (-53) (Prim2SF (1 - x)%float)
  \/ signed true (Prim2SF (1 - x)%float).
Proof.
  rewrite leb_spec, Prim2SF_half, sub_spec, Prim2SF_one.
  pose proof (Prim2SF_valid x) as Hv.
  destruct (Prim2SF x) as [s|[|]| |[|] m e]; intros H; try discriminate H.
  - right. right. now right.
  - apply SFleb_finite_pos in H.
    destruct (bounded_canonical _ _ Hv) as [Hc _].
    apply SFsub_one_finite; [vm_compute; discriminate | vm_compute; discriminate|].
    intros HD.
    destruct H as [H | [<- H]].
    + exfalso. replace (Z.min (-52) e) with (-52) in HD by lia.
      assert (Hd : Zpos (digits2_pos m) = 53).
      { revert Hc. unfold fexp, SpecFloat.emin, prec, emax. lia. }
      pose proof (digits2_lower m) as Hlo. rewrite Hd in Hlo.
      change (2 ^ (53 - 1)) with 4503599627370496 in Hlo.
      change (2 ^ (- -52)) with 4503599627370496 in HD.
      assert (0 < 2 ^ (e - -52)) by (apply Z.pow_pos_nonneg; lia). nia.
    + replace (Z.min (-52) (-53)) with (-53) in * by lia.
      split; [lia|]. rewrite !Z.sub_diag, Z.mul_1_r in *.
      change (2 ^ (- -53)) with 9007199254740992. lia.
Qed.

Lemma SFleb_SFltb_finite m e mt et :
  SFleb (S754_finite false m e) (S754_finite false mt et) = true ->
  SFltb (S754_finite false mt et) (S754_finite false m e) = false.
Proof.
  intros H. apply SFleb_finite_pos in H.
  unfold SFltb, SFcompare.
  change (Pos.compare_cont Eq mt m) with (Pos.compare mt m).
  destruct (Z.compare_spec et e) as [He|He|He]; [|lia|reflexivity].
  destruct (Pos.compare_spec mt m) as [Hm|Hm|Hm]; [reflexivity | lia | reflexivity].
Qed.

(** A float that is at most the positive float [b], or carries the minus
    sign, is [<= b] and not [> b]. *)
Lemma at_most_or_negative_le (b r : float) mt et :
  Prim2SF b = S754_finite false mt et ->
  at_most false mt et (Prim2SF r) \/ signed true (Prim2SF r) ->
  (r <=? b)%float = true /\ (b <? r)%float = false.
Proof.
  intros Hb H. rewrite leb_spec, ltb_spec, Hb.
  destruct H as [H | [-> | [(m & e & ->) | ->]]]; try (split; reflexivity).
  pose proof (at_most_SFleb _ _ _ H) as Hle. split; [exact Hle|].
  destruct H as [-> | (m & e & Hr & _)]; [reflexivity|].
  rewrite Hr in *. now apply SFleb_SFltb_finite.
Qed.
(** NaN, a zero, or a positive number. *)
Definition not_negative (x : spec_float) : Prop :=
  x = S754_nan \/ (exists s, x = S754_zero s)
  \/ (exists m e, x = S754_finite false m e) \/ x = S754_infinity false.

Lemma SFmul_not_negative x y :
  not_negative x -> not_negative y -> not_negative (SF64mul x y).
Proof.
  intros [-> | [[sx ->] | [(mx & ex & ->) | ->]]]
         [-> | [[sy ->] | [(my & ey & ->) | ->]]];
    try (left; reflexivity);
    try (right; left; eexists; reflexivity);
    try (right; right; right; reflexivity).
  unfold SF64mul, SFmul. cbv [xorb].
  destruct (round_aux_signed false (mx * my) (ex + ey))
    as [-> | [(m & e & ->) | ->]].
  - right. left. now exists false.
  - right. right. left. now exists m, e.
  - right. right. now right.
Qed.

Lemma SFabs_not_negative x : not_negative (SFabs x).
Proof.
  destruct x as [s|s| |s m e]; simpl.
  - right. left. now exists false.
  - right. right. now right.
  - now left.
  - right. right. left. now exists m, e.
Qed.

Lemma float_nonneg_not_negative (x : float) :
  (0 <=? x)%float = true -> not_negative (Prim2SF x).
Proof.
  intros H. right. exact (float_nonneg_cases x H).
Qed.

Lemma not_negative_cases (x : float) :
  not_negative (Prim2SF x) -> x = nan \/ (0 <=? x)%float = true.
Proof.
  intros [H | H]; [left; now apply float_is_nan | right].
  rewrite leb_spec, Prim2SF_zero.
  destruct H as [[s ->] | [(m & e & ->) | ->]]; reflexivity.
Qed.
End Binary64Sub.

(** ** Balance penalty and risk gate *)

Section PenaltyAndRisk.
Import Py Calculator Validator.

(** The balance penalty is never negative and never NaN, whatever the
    scores are (NaN and infinities included); and with a weight that is
    not negative it never exceeds [1]. *)
Theorem balance_penalty_range self p e :
  (0 <=? balance_penalty self p e) = true
  /\ ((0 <=? phi_weight self) = true ->
      (balance_penalty self p e <=? 1) = true).
Proof.
  unfold balance_penalty, max.
  set (y := phi_weight self * PHI * abs (p - e)).
  split.
  - destruct (0 <? 1 - y) eqn:H; [now apply float_ltb_leb | reflexivity].
  - intros Hw.
    assert (Hy : not_negative (Prim2SF y)).
    { unfold y. rewrite !mul_spec, abs_spec.
      apply SFmul_not_negative; [apply SFmul_not_negative|].
      - now apply float_nonneg_not_negative.
      - apply float_nonneg_not_negative. vm_compute. reflexivity.
      - apply SFabs_not_negative. }
    destruct (not_negative_cases y Hy) as [-> | Hy0].
    + vm_compute. reflexivity.
    + destruct (float_one_sub_nonneg y Hy0) as [Hu | Hn].
      * destruct (0 <? 1 - y); [|reflexivity].
        exact (proj2 (float_unit_bounds _ Hu)).
      * replace (0 <? 1 - y) with false; [reflexivity|].
        symmetry. rewrite ltb_spec, Prim2SF_zero.
        destruct Hn as [-> | [(m & e' & ->) | ->]]; reflexivity.
Qed.

(** An exposure of one half or more is never approved: the risk score is
    then at most [0.5] (it is [0] from exposure [1] on, where [min] caps
    it), so the decision is a rejection, for the index if that is
    invalid and else for the risk. *)
Theorem high_exposure_is_rejected self intent x :
  sanctioned intent = None ->
  exposure_ratio intent = Some x ->
  (0.5 <=? x) = true ->
  exists d rs tr,
    validate_intent self intent = Some d
    /\ approved d = false
    /\ risk_score d = Some rs
    /\ (rs <=? 0.5) = true
    /\ epi_trace d = Some tr
    /\ reason d = match t_reason tr with
                  | Approved => "Risk exceed"%string
                  | _ => "EPI rejection"%string
                  end.
Proof.
  intros Hs Hx Hhalf.
  destruct (validate_intent_scored self intent Hs)
    as (epi & valid & tr & Hc & Hv & Hd).
  assert (Hrs : (intent_risk_score intent <=? 0.5) = true
                /\ (0.5 <? intent_risk_score intent) = false).
  { unfold intent_risk_score, min, get. rewrite Hx.
    destruct (1 <? x).
    - split; vm_compute; reflexivity.
    - apply (at_most_or_negative_le 0.5 (1 - x) _ _ Prim2SF_half).
      now apply float_one_sub_half. }
  destruct Hrs as [Hle Hgt].
  eexists _, _, tr. split; [exact Hd|]. simpl.
  unfold gt. rewrite Hgt, Hle, andb_false_r.
  repeat split.
  destruct (compute_epi_inv _ _ _ _ _ _ Hc)
    as (hmean & _ & _ & _ & _ & _ & _ & _ & _ & Hr).
  rewrite Hr. unfold rejection_by_precedence.
  destruct valid; simpl; [reflexivity|].
  destruct (t_hmean tr <? 0.5); [reflexivity|].
  destruct (t_balance_penalty tr <? 0.7); [reflexivity|].
  destruct (t_trust tr <? 0.5); reflexivity.
Qed.

(** The fixture [high_risk_intent] of the test-suite: exposure [0.9]. *)
Definition high_risk_intent : Intent :=
  {| sanctioned := None; exposure_ratio := Some 0.9;
     ethics_factors := Some [("env", 0.8); ("equity", 0.75)]%string;
     roi_proxy := Some 0.9;
     past_violations := Some [] |}.

Lemma high_exposure_is_rejected_witness :
  exists d, validate_intent new_validator high_risk_intent = Some d
            /\ approved d = false.
Proof.
  destruct (high_exposure_is_rejected new_validator high_risk_intent 0.9
              eq_refl eq_refl eq_refl) as (d & rs & tr & Hd & Ha & _).
  exists d. split; assumption.
Defined.
End PenaltyAndRisk.

(** ** Binary64: NaN *)

Section Binary64NaN.

Lemma Prim2SF_nan : Prim2SF nan = S754_nan.
Proof. vm_compute. reflexivity. Qed.

Lemma float_mul_nan_r x : x * nan = nan.
Proof.
  apply float_is_nan. rewrite mul_spec, Prim2SF_nan.
  now destruct (Prim2SF x).
Qed.

Lemma float_mul_nan_l x : nan * x = nan.
Proof.
  apply float_is_nan. rewrite mul_spec, Prim2SF_nan. reflexivity.
Qed.

Lemma float_sub_nan_r x : x - nan = nan.
Proof.
  apply float_is_nan. rewrite sub_spec, Prim2SF_nan.
  now destruct (Prim2SF x).
Qed.

Lemma float_add_nan_r x : x + nan = nan.
Proof.
  apply float_is_nan. rewrite add_spec, Prim2SF_nan.
  now destruct (Prim2SF x).
Qed.

Lemma float_div_nan_l x : nan / x = nan.
Proof.
  apply float_is_nan. rewrite div_spec, Prim2SF_nan. reflexivity.
Qed.

Lemma SFltb_false_SFleb m e mt et :
  SFltb (S754_finite false mt et) (S754_finite false m e) = false ->
  SFleb (S754_finite false m e) (S754_finite false mt et) = true.
Proof.
  intros H. apply finite_pos_SFleb. revert H.
  unfold SFltb, SFcompare.
  change (Pos.compare_cont Eq mt m) with (Pos.compare mt m).
  destruct (Z.compare_spec et e) as [He|He|He];
    [|discriminate | intros _; left; lia].
  destruct (Pos.compare_spec mt m) as [Hm|Hm|Hm]; intros H;
    [|discriminate H|]; right; (split; [lia|]); [subst m; apply Z.le_refl | lia].
Qed.

(** A float that is neither [> 0.5] nor [<= 0.5] is NaN. *)
Lemma float_unordered_half r :
  (0.5 <? r) = false -> (r <=? 0.5) = false -> r = nan.
Proof.
  rewrite ltb_spec, leb_spec, Prim2SF_half. intros Hlt Hle.
  apply float_is_nan.
  destruct (Prim2SF r) as [s|[|]| |[|] m e]; try reflexivity;
    try discriminate Hlt; try discriminate Hle.
  apply SFltb_false_SFleb in Hlt. rewrite Hlt in Hle. discriminate Hle.
Qed.

(** [a < b] excludes [b <= a]. *)
Lemma float_gt_not_le a b : (a <? b) = true -> (b <=? a) = true -> False.
Proof.
  rewrite ltb_spec, leb_spec. unfold SFltb, SFleb.
  destruct (Prim2SF a) as [sa|[|]| |[|] ma ea],
           (Prim2SF b) as [sb|[|]| |[|] mb eb];
    try discriminate; unfold SFcompare;
    change (Pos.compare_cont Eq ma mb) with (Pos.compare ma mb);
    change (Pos.compare_cont Eq mb ma) with (Pos.compare mb ma);
    rewrite (Z.compare_antisym ea eb), (Pos.compare_antisym ma mb);
    destruct (ea ?= eb)%Z; simpl; try discriminate;
    destruct (ma ?= mb)%positive; simpl; discriminate.
Qed.

(** [1 - y] is NaN only for a NaN [y]. *)
Lemma float_one_sub_is_nan y : 1 - y = nan -> y = nan.
Proof.
  intros H. apply float_is_nan.
  apply (f_equal Prim2SF) in H.
  rewrite sub_spec, Prim2SF_one, Prim2SF_nan in H.
  destruct (Prim2SF y) as [s|s| |s m e]; try reflexivity; try discriminate H.
  exfalso. revert H. unfold SF64sub, SFsub, binary_normalize.
  destruct (_ - _)%Z as [|d|d]; [discriminate| |]; unfold binary_round;
    destruct (shl_align d _ _) as [mz ez]; intros H.
  - destruct (round_aux_signed false mz ez) as [H1 | [(m1 & e1 & H1) | H1]];
      rewrite H1 in H; discriminate H.
  - destruct (round_aux_signed true mz ez) as [H1 | [(m1 & e1 & H1) | H1]];
      rewrite H1 in H; discriminate H.
Qed.
End Binary64NaN.

(** ** Policy pipeline, further *)

Section PolicyPipelineProperties.
Import Py Calculator Validator.

Lemma no_factors_scores intent :
  no_factors intent ->
  intent_scores intent =
    mkScores (PyF (get (roi_proxy intent) 0)) (NpF nan)
      (get (past_violations intent) []).
Proof.
  intros Hf. unfold intent_scores, intent_ethics.
  destruct Hf as [-> | ->]; simpl; repeat f_equal; vm_compute; reflexivity.
Qed.

(** An intent without ethics factors is always rejected by a pipeline
    whose threshold is positive: the NaN ethics makes the balance penalty
    [0] and the index zero or NaN, so the decision is ['EPI rejection'];
    the trace blames the harmonic mean when the profit is zero and the
    imbalance otherwise. *)
Theorem no_factors_is_rejected self intent :
  sanctioned intent = None ->
  no_factors intent ->
  (0 <? threshold (epi_calc self)) = true ->
  exists d tr,
    validate_intent self intent = Some d
    /\ approved d = false
    /\ reason d = "EPI rejection"%string
    /\ epi_trace d = Some tr
    /\ t_balance_penalty tr = 0
    /\ t_reason tr = if get (roi_proxy intent) 0 =? 0
                     then HarmonicMeanTooLow else Imbalance.
Proof.
  intros Hs Hf Ht.
  destruct (validate_intent_scored self intent Hs)
    as (epi & valid & tr & Hc & Hv & Hd).
  rewrite (no_factors_scores intent Hf) in Hc.
  set (roi := get (roi_proxy intent) 0) in *.
  set (viol := get (past_violations intent) []) in *.
  assert (Hpen : balance_penalty (epi_calc self) roi nan = 0).
  { unfold balance_penalty. rewrite float_sub_nan_r.
    replace (abs nan) with nan by (vm_compute; reflexivity).
    rewrite float_mul_nan_r, float_sub_nan_r. vm_compute. reflexivity. }
  destruct (compute_epi_inv _ _ _ _ _ _ Hc)
    as (hmean & Hh & Hth & Hp & _ & _ & He & _ & _ & Hr).
  cbn [mkScores profit ethics violations val] in Hh, Hp.
  rewrite Hpen in Hp.
  assert (Hz : zero_or_nan (Prim2SF epi)).
  { rewrite He, Hp. cbn zeta. rewrite !mul_spec.
    apply SFmul_zero_or_nan_l, SFmul_zero_or_nan_r.
    left. exists false. exact Prim2SF_zero. }
  assert (Hvalid : valid = false)
    by (rewrite Hv; unfold ge; now apply zero_or_nan_below).
  assert (Hhm : hmean = if roi =? 0 then 0 else nan).
  { revert Hh. unfold harmonic_mean, truediv; cbn [val is_np orb].
    replace (nan =? 0) with false by (vm_compute; reflexivity).
    rewrite orb_false_r.
    destruct (roi =? 0); intros Hh; injection Hh as <-; [reflexivity|].
    now rewrite float_mul_nan_r, float_div_nan_l. }
  rewrite Hvalid in Hd, Hr.
  eexists _, tr. split; [exact Hd|]. cbn [approved reason epi_trace negb andb].
  repeat split; [exact Hp|].
  rewrite Hr, Hth, Hp, Hhm. unfold rejection_by_precedence. cbn [negb].
  destruct (roi =? 0); vm_compute; reflexivity.
Qed.

Lemma no_factors_is_rejected_witness :
  exists d, validate_intent new_validator empty_factors_intent = Some d
            /\ approved d = false
            /\ reason d = "EPI rejection"%string.
Proof.
  destruct (no_factors_is_rejected new_validator empty_factors_intent
              eq_refl (or_intror eq_refl) eq_refl)
    as (d & tr & Hd & Ha & Hr & _).
  exists d. repeat split; assumption.
Defined.

(** Approval and reason agree, but for NaN: an approved decision always
    carries the reason ['Approved']; a decision that carries it without
    being approved has a NaN risk score, which only a NaN exposure ratio
    produces. *)
Theorem approved_reason_consistency self intent d :
  sanctioned intent = None ->
  validate_intent self intent = Some d ->
  (approved d = true -> reason d = "Approved"%string)
  /\ (reason d = "Approved"%string -> approved d = false ->
      risk_score d = Some nan /\ exposure_ratio intent = Some nan).
Proof.
  intros Hs Hd.
  destruct (validate_intent_scored self intent Hs)
    as (epi & valid & tr & _ & _ & Hd').
  rewrite Hd' in Hd. injection Hd as <-. simpl. unfold gt.
  set (rs := intent_risk_score intent).
  destruct valid; simpl.
  - destruct (0.5 <? rs) eqn:Hgt.
    + split; [|discriminate]. intros _.
      destruct (rs <=? 0.5) eqn:Hle; [|reflexivity].
      exfalso. exact (float_gt_not_le _ _ Hgt Hle).
    + split; [discriminate|].
      destruct (rs <=? 0.5) eqn:Hle; [discriminate|]. intros _ _.
      assert (Hnan : rs = nan) by now apply float_unordered_half.
      split; [now rewrite Hnan|].
      revert Hnan. unfold rs, intent_risk_score, min, get.
      destruct (exposure_ratio intent) as [x|].
      * destruct (1 <? x); intros H.
        -- exfalso. revert H. vm_compute. intros H.
           apply (f_equal is_nan) in H. vm_compute in H. discriminate.
        -- f_equal. now apply float_one_sub_is_nan.
      * intros H. exfalso. revert H. vm_compute. intros H.
        apply (f_equal is_nan) in H. vm_compute in H. discriminate.
  - split; discriminate.
Qed.

Lemma approved_reason_consistency_witness :
  exists d, validate_intent new_validator valid_intent = Some d
            /\ (approved d = true -> reason d = "Approved"%string).
Proof.
  eexists. split; [reflexivity|].
  match goal with
  | |- approved ?d = true -> _ =>
      exact (proj1 (approved_reason_consistency new_validator valid_intent d
                      eq_refl eq_refl))
  end.
Defined.
End PolicyPipelineProperties.

(** ** Binary64: [<] is transitive *)

Section Binary64Lt.

Lemma SFltb_trans x y z :
  SFltb x y = true -> SFltb y z = true -> SFltb x z = true.
Proof.
  unfold SFltb.
  destruct x as [sx|sx| |sx mx ex], y as [sy|sy| |sy my ey],
           z as [sz|sz| |sz mz ez];
    try discriminate;
    try (destruct sx, sy, sz; simpl; intros; first [reflexivity | discriminate]);
    try (destruct sx, sy; simpl; intros; first [reflexivity | discriminate]);
    try (destruct sy, sz; simpl; intros; first [reflexivity | discriminate]);
    try (destruct sx, sz; simpl; intros; first [reflexivity | discriminate]).
  all: unfold SFcompare;
    change (Pos.compare_cont Eq mx my) with (Pos.compare mx my);
    change (Pos.compare_cont Eq my mz) with (Pos.compare my mz);
    change (Pos.compare_cont Eq mx mz) with (Pos.compare mx mz).
  all: destruct sx, sy, sz; try discriminate; try reflexivity.
  all: destruct (Z.compare_spec ex ey), (Z.compare_spec ey ez),
         (Z.compare_spec ex ez); try discriminate; try reflexivity;
       try lia.
  all: destruct (Pos.compare_spec mx my), (Pos.compare_spec my mz),
         (Pos.compare_spec mx mz); simpl; try discriminate; try reflexivity;
       try lia.
Qed.

Lemma float_ltb_trans a b c :
  (a <? b) = true -> (b <? c) = true -> (a <? c) = true.
Proof. rewrite !ltb_spec. apply SFltb_trans. Qed.

(** If [q] is not below [b] and [p] is, then [q] is not below [p]. *)
Lemma float_not_lt_mono q p b :
  (q <? b) = false -> (p <? b) = true -> (q <? p) = false.
Proof.
  intros Hqb Hpb. destruct (q <? p) eqn:Hqp; [|reflexivity].
  now rewrite (float_ltb_trans q p b Hqp Hpb) in Hqb.
Qed.
End Binary64Lt.

(** ** The grid search *)

Section GridSearch.
Import Py Calculator Optimizer.

Variable self : EPICalculator.
Variable target_epi : float.
Variable current_ethics : num.
Variable violations : list float.

(** Profit [p] brings the index within [0.05] of the target. *)
Definition near_target (p : float) : bool :=
  abs (epi_at self current_ethics violations p - target_epi) <? 0.05.

Definition deviation_at (p : float) : float :=
  golden_ratio_deviation p (val current_ethics).

(** What the loop has established once it went through [seen]. *)
Definition search_invariant (seen : list float) (b : Best) : Prop :=
  (b = initial_best
   \/ (In (best_profit b) seen
       /\ near_target (best_profit b) = true
       /\ best_epi b = epi_at self current_ethics violations (best_profit b)
       /\ best_deviation b = deviation_at (best_profit b)
       /\ (best_deviation b <? infinity) = true))
  /\ forall q, In q seen -> near_target q = true ->
       (deviation_at q <? best_deviation b) = false.

Lemma float_ltb_irrefl a : (a <? a) = false.
Proof.
  destruct (a <? a) eqn:H; [|reflexivity].
  exfalso. exact (float_gt_not_le a a H (float_ltb_leb a a H)).
Qed.

Lemma search_step_invariant seen b p :
  search_invariant seen b ->
  search_invariant (seen ++ [p])
    (search_step self target_epi current_ethics violations b p).
Proof.
  intros [Hb Hmin]. unfold search_step.
  fold (near_target p). fold (deviation_at p).
  destruct (near_target p) eqn:Hnear; simpl.
  - destruct (deviation_at p <? best_deviation b) eqn:Hdev.
    + split.
      * right. simpl. split; [apply in_or_app; right; now left|].
        repeat split; try assumption.
        destruct Hb as [-> | (_ & _ & _ & _ & Hfin)]; [exact Hdev|].
        exact (float_ltb_trans _ _ _ Hdev Hfin).
      * simpl. intros q Hq Hqn.
        apply in_app_or in Hq. destruct Hq as [Hq | [<- | []]].
        -- exact (float_not_lt_mono _ _ _ (Hmin q Hq Hqn) Hdev).
        -- apply float_ltb_irrefl.
    + split.
      * destruct Hb as [-> | (Hin & H)]; [now left | right].
        split; [apply in_or_app; now left | exact H].
      * intros q Hq Hqn.
        apply in_app_or in Hq. destruct Hq as [Hq | [<- | []]];
          [now apply Hmin | exact Hdev].
  - split.
    + destruct Hb as [-> | (Hin & H)]; [now left | right].
      split; [apply in_or_app; now left | exact H].
    + intros q Hq Hqn.
      apply in_app_or in Hq. destruct Hq as [Hq | [<- | []]];
        [now apply Hmin | congruence].
Qed.

Lemma search_fold_invariant grid : forall seen b,
  search_invariant seen b ->
  search_invariant (seen ++ grid)
    (fold_left (search_step self target_epi current_ethics violations) grid b).
Proof.
  induction grid as [|p grid IH]; intros seen b H; simpl.
  - now rewrite app_nil_r.
  - replace (seen ++ p :: grid) with ((seen ++ [p]) ++ grid)
      by (rewrite <- app_assoc; reflexivity).
    apply IH. now apply search_step_invariant.
Qed.

Lemma search_spec grid :
  search_invariant grid
    (search self target_epi current_ethics violations grid).
Proof.
  unfold search.
  apply (search_fold_invariant grid [] initial_best).
  split; [now left | intros q []].
Qed.

Lemma grid_in_range :
  forall p, In p (np_linspace 0.1 1.0 100) ->
            (0.1 <=? p) = true /\ (p <=? 1) = true.
Proof.
  assert (H : forallb (fun p => (0.1 <=? p) && (p <=? 1))
                (np_linspace 0.1 1.0 100) = true)
    by (vm_compute; reflexivity).
  intros p Hp. rewrite forallb_forall in H.
  apply andb_prop. exact (H p Hp).
Qed.

(** The search returns the zero result ([0], [0], [inf]), or a profit of
    the grid, in [[0.1, 1]], whose index is within [0.05] of the target,
    with that index and its golden-ratio deviation; and in both cases no
    grid point within [0.05] of the target has a smaller deviation than
    the one returned. *)
Lemma optimize_profit :
  optimal_profit
    (optimize_for_golden_ratio self target_epi current_ethics violations)
  = best_profit
      (search self target_epi current_ethics violations
         (np_linspace 0.1 1.0 100)).
Proof. reflexivity. Qed.

Lemma optimize_epi :
  achieved_epi
    (optimize_for_golden_ratio self target_epi current_ethics violations)
  = best_epi
      (search self target_epi current_ethics violations
         (np_linspace 0.1 1.0 100)).
Proof. reflexivity. Qed.

Lemma optimize_deviation :
  o_golden_ratio_deviation
    (optimize_for_golden_ratio self target_epi current_ethics violations)
  = best_deviation
      (search self target_epi current_ethics violations
         (np_linspace 0.1 1.0 100)).
Proof. reflexivity. Qed.

(** [optimize_for_golden_ratio] returns either the initial answer (profit
    [0], index [0], deviation [+inf]) or a point of the 100-point grid on
    [[0.1, 1]] whose index is within [0.05] of the target
    ([abs(epi - target_epi) < 0.05]), with the index and the deviation
    computed at that point; and no grid point whose index is within
    [0.05] of the target has a strictly smaller deviation than the one
    returned. *)
Theorem optimize_returns_best_grid_point :
  let o := optimize_for_golden_ratio self target_epi current_ethics violations in
  ((optimal_profit o = 0 /\ achieved_epi o = 0
    /\ o_golden_ratio_deviation o = infinity)
   \/ (In (optimal_profit o) (np_linspace 0.1 1.0 100)
       /\ (0.1 <=? optimal_profit o) = true
       /\ (optimal_profit o <=? 1) = true
       /\ near_target (optimal_profit o) = true
       /\ achieved_epi o
          = epi_at self current_ethics violations (optimal_profit o)
       /\ o_golden_ratio_deviation o = deviation_at (optimal_profit o)
       /\ (o_golden_ratio_deviation o <? infinity) = true))
  /\ (forall q, In q (np_linspace 0.1 1.0 100) ->
       near_target q = true ->
       (deviation_at q <? o_golden_ratio_deviation o) = false)
  /\ (forall q,
       near_target q
       = (abs (epi_at self current_ethics violations q - target_epi) <? 0.05))
  /\ (forall q,
       deviation_at q = golden_ratio_deviation q (val current_ethics)).
Proof.
  intros o. subst o.
  rewrite optimize_profit, optimize_epi, optimize_deviation.
  destruct (search_spec (np_linspace 0.1 1.0 100)) as [Hb Hmin].
  split; [|split; [exact Hmin | split; intros q; reflexivity]].
  destruct Hb as [Hb | (Hin & Hnear & Hepi & Hdev & Hfin)].
  - left. rewrite Hb. repeat split.
  - right. destruct (grid_in_range _ Hin) as [Hlo Hhi].
    repeat split; assumption.
Qed.
End GridSearch.

(** The search on target [0.6], ethics [0.8] and one violation of [0.1]:
    the profit returned is the grid point [0.618...], whose index
    [0.557...] is within [0.05] of the target. *)
Lemma optimize_example :
  let o :=
    Optimizer.optimize_for_golden_ratio Calculator.default_calculator 0.6
      (Py.PyF 0.8) [0.1] in
  Optimizer.optimal_profit o = 0.61818181818181817
  /\ Optimizer.achieved_epi o = 0.55715863848672531
  /\ Optimizer.o_golden_ratio_deviation o = 0.15469328397737792.
Proof. repeat split; vm_compute; reflexivity. Qed.

(** ** Audit log *)

Section AuditLog.
Import Logger.
Local Open Scope string_scope.

Variable sha256_hexdigest : string -> string.
Variable json_dumps : ThoughtRecord -> string.
Variable json_dumps_report : AuditReport -> string.

Lemma read_write_same name f fs :
  read_file name (write_file name f fs) = Some f.
Proof.
  induction fs as [|[n g] fs IH]; simpl.
  - now rewrite String.eqb_refl.
  - destruct (String.eqb n name) eqn:E; simpl.
    + now rewrite String.eqb_refl.
    + now rewrite E.
Qed.

Lemma read_write_other name other f fs :
  name <> other ->
  read_file other (write_file name f fs) = read_file other fs.
Proof.
  intros Hne. induction fs as [|[n g] fs IH]; simpl.
  - destruct (String.eqb_spec name other); [contradiction | reflexivity].
  - destruct (String.eqb_spec n name) as [->|Hn]; simpl.
    + destruct (String.eqb_spec name other); [contradiction | reflexivity].
    + destruct (String.eqb n other); [reflexivity | exact IH].
Qed.

Lemma write_write name f1 f2 fs :
  write_file name f2 (write_file name f1 fs) = write_file name f2 fs.
Proof.
  induction fs as [|[n g] fs IH]; simpl.
  - now rewrite String.eqb_refl.
  - destruct (String.eqb n name) eqn:E; simpl.
    + now rewrite String.eqb_refl.
    + now rewrite E, IH.
Qed.

Lemma write_file_length name f fs :
  List.length (write_file name f fs)
  = match read_file name fs with
    | Some _ => List.length fs
    | None => S (List.length fs)
    end.
Proof.
  induction fs as [|[n g] fs IH]; simpl; [reflexivity|].
  destruct (String.eqb n name); simpl; [reflexivity|].
  rewrite IH. now destruct (read_file name fs).
Qed.

(** The record a call of [log_thought] builds. *)
Definition logged_record (now : Z) (agent action reasoning : string)
    (epi_trace inputs outputs : list (string * json))
    (metadata : option (list (string * json))) : ThoughtRecord :=
  {| timestamp := now; agent_id := agent; action := action;
     reasoning := reasoning; epi_trace := epi_trace; inputs := inputs;
     outputs := outputs;
     metadata := match metadata with Some m => m | None => [] end |}.

(** What [log_thought] writes can be read back and verifies: after the
    call the file named after the session and the second holds the
    record, and the returned hash verifies the record's JSON text; any
    text verifies against it exactly when it has the same digest. *)
Theorem log_then_verify self fs now agent act reasoning trace ins outs meta :
  let r := logged_record now agent act reasoning trace ins outs meta in
  let '(fs', h, _) :=
    log_thought sha256_hexdigest json_dumps self fs now agent act reasoning
      trace ins outs meta in
  read_file (log_file_name self now) fs' = Some (RecordFile r)
  /\ verify_thought sha256_hexdigest (json_dumps r) h = true
  /\ forall text,
       verify_thought sha256_hexdigest text h = true
       <-> sha256_hexdigest text = sha256_hexdigest (json_dumps r).
Proof.
  unfold log_thought, verify_thought, logged_record; simpl.
  split; [apply read_write_same|].
  split; [apply String.eqb_refl|].
  intros text. apply String.eqb_eq.
Qed.

(** Two appends within the same second of one session collide: both
    write the same file, and after the second call the directory is
    exactly what it would be had the first call never happened; the first
    record is lost. *)
Theorem same_second_append_overwrites self fs now
    agent1 act1 reasoning1 trace1 ins1 outs1 meta1
    agent2 act2 reasoning2 trace2 ins2 outs2 meta2 :
  let fs1 :=
    fst (fst (log_thought sha256_hexdigest json_dumps self fs now
                agent1 act1 reasoning1 trace1 ins1 outs1 meta1)) in
  let fs2 :=
    fst (fst (log_thought sha256_hexdigest json_dumps self fs1 now
                agent2 act2 reasoning2 trace2 ins2 outs2 meta2)) in
  fs2 = fst (fst (log_thought sha256_hexdigest json_dumps self fs now
                    agent2 act2 reasoning2 trace2 ins2 outs2 meta2))
  /\ List.length fs2 = List.length fs1
  /\ read_file (log_file_name self now) fs2
     = Some (RecordFile
               (logged_record now agent2 act2 reasoning2 trace2 ins2 outs2
                  meta2)).
Proof.
  unfold log_thought; simpl.
  split; [apply write_write|].
  split; [|apply read_write_same].
  rewrite !write_file_length, read_write_same. reflexivity.
Qed.

Lemma append_inj_l (s a b : string) : s ++ a = s ++ b -> a = b.
Proof.
  induction s as [|c s IH]; simpl; intros H; [exact H|].
  injection H as H. now apply IH.
Qed.

Lemma length_append (a b : string) :
  String.length (a ++ b) = (String.length a + String.length b)%nat.
Proof. induction a as [|c a IH]; simpl; [reflexivity | now rewrite IH]. Qed.

Lemma append_inj_r (t a b : string) : a ++ t = b ++ t -> a = b.
Proof.
  revert b. induction a as [|c a IH]; intros [|d b] H; simpl in H.
  - reflexivity.
  - exfalso. apply (f_equal String.length) in H.
    simpl in H. rewrite length_append in H. lia.
  - exfalso. apply (f_equal String.length) in H.
    simpl in H. rewrite length_append in H. lia.
  - injection H as -> H. f_equal. now apply IH.
Qed.

Lemma str_int_inj a b : str_int a = str_int b -> a = b.
Proof.
  unfold str_int. intros H.
  apply (f_equal DecimalString.NilEmpty.int_of_string) in H.
  rewrite !DecimalString.NilEmpty.isi in H. injection H as H.
  apply (f_equal Z.of_int) in H. now rewrite !DecimalZ.of_to in H.
Qed.

Lemma log_file_name_inj self a b :
  log_file_name self a = log_file_name self b -> a = b.
Proof.
  unfold log_file_name. intros H.
  apply append_inj_l, append_inj_l, append_inj_r in H.
  now apply str_int_inj.
Qed.

(** Appends in different seconds do not disturb each other: both records
    can be read back, each from its own file, and the second call adds a
    file. *)
Theorem distinct_seconds_keep_both self fs now1 now2
    agent1 act1 reasoning1 trace1 ins1 outs1 meta1
    agent2 act2 reasoning2 trace2 ins2 outs2 meta2 :
  now1 <> now2 ->
  let fs1 :=
    fst (fst (log_thought sha256_hexdigest json_dumps self fs now1
                agent1 act1 reasoning1 trace1 ins1 outs1 meta1)) in
  let fs2 :=
    fst (fst (log_thought sha256_hexdigest json_dumps self fs1 now2
                agent2 act2 reasoning2 trace2 ins2 outs2 meta2)) in
  read_file (log_file_name self now1) fs2
    = Some (RecordFile
              (logged_record now1 agent1 act1 reasoning1 trace1 ins1 outs1
                 meta1))
  /\ read_file (log_file_name self now2) fs2
     = Some (RecordFile
               (logged_record now2 agent2 act2 reasoning2 trace2 ins2 outs2
                  meta2))
  /\ (read_file (log_file_name self now2) fs1 = None ->
      List.length fs2 = S (List.length fs1)).
Proof.
  intros Hne. unfold log_thought; simpl.
  assert (Hn : log_file_name self now2 <> log_file_name self now1)
    by (intros H; apply Hne; symmetry; exact (log_file_name_inj _ _ _ H)).
  split; [rewrite (read_write_other _ _ _ _ Hn); apply read_write_same|].
  split; [apply read_write_same|].
  intros Hnone. rewrite write_file_length with (name := log_file_name self now2).
  now rewrite Hnone.
Qed.

Lemma insert_desc_In x e l : In e (insert_desc x l) <-> e = x \/ In e l.
Proof.
  induction l as [|y l IH]; simpl.
  - intuition.
  - destruct (String.leb (fst y) (fst x)); simpl; [intuition|].
    rewrite IH. intuition.
Qed.

Lemma sorted_desc_In e l : In e (sorted_desc l) <-> In e l.
Proof.
  induction l as [|x l IH]; simpl; [reflexivity|].
  rewrite insert_desc_In, IH. intuition.
Qed.

Lemma insert_desc_length x l :
  List.length (insert_desc x l) = S (List.length l).
Proof.
  induction l as [|y l IH]; simpl; [reflexivity|].
  destruct (String.leb (fst y) (fst x)); simpl; [reflexivity | now rewrite IH].
Qed.

Lemma sorted_desc_length l : List.length (sorted_desc l) = List.length l.
Proof.
  induction l as [|x l IH]; simpl; [reflexivity|].
  now rewrite insert_desc_length, IH.
Qed.


Lemma py_take_length {A} (k : Z) (l : list A) :
  (0 <= k)%Z -> (List.length (py_take k l) <= Z.to_nat k)%nat.
Proof.
  intros Hk. unfold py_take.
  replace (0 <=? k)%Z with true by (symmetry; now apply Z.leb_le).
  rewrite length_firstn. lia.
Qed.

Lemma py_take_all {A} (k : Z) (l : list A) :
  (Z.of_nat (List.length l) <= k)%Z -> py_take k l = l.
Proof.
  intros Hk. unfold py_take.
  replace (0 <=? k)%Z with true by (symmetry; apply Z.leb_le; lia).
  apply firstn_all2. lia.
Qed.

(** The records of a window of files, unfiltered. *)
Definition records_of (files : directory) : list ThoughtRecord :=
  flat_map (fun e => match snd e with
                     | RecordFile r => [r]
                     | OtherFile _ => []
                     end) files.

Lemma history_as_filter fs agent act limit :
  get_thought_history fs agent act limit
  = filter (passes_filters agent act)
      (records_of (py_take limit (sorted_desc (glob_json fs)))).
Proof.
  unfold get_thought_history, records_of.
  induction (py_take limit (sorted_desc (glob_json fs))) as [|[n f] l IH];
    simpl; [reflexivity|].
  destruct f as [r|c]; simpl; [|exact IH].
  destruct (passes_filters agent act r); simpl; now rewrite IH.
Qed.

Lemma records_of_length files :
  (List.length (records_of files) <= List.length files)%nat.
Proof.
  induction files as [|[n [r|c]] l IH]; simpl; lia.
Qed.

Lemma history_length_le fs agent act limit :
  (0 <= limit)%Z ->
  (List.length (get_thought_history fs agent act limit) <= Z.to_nat limit)%nat.
Proof.
  intros Hk. rewrite history_as_filter.
  etransitivity; [apply filter_length_le|].
  etransitivity; [apply records_of_length|].
  now apply py_take_length.
Qed.


Lemma write_file_In name f fs : In (name, f) (write_file name f fs).
Proof.
  induction fs as [|[n g] fs IH]; simpl; [now left|].
  destruct (String.eqb n name); [now left | now right].
Qed.

Lemma append_assoc (a b c : string) : (a ++ b) ++ c = a ++ (b ++ c).
Proof. induction a as [|x a IH]; simpl; [reflexivity | now rewrite IH]. Qed.

Lemma substring_whole (s : string) : substring 0 (String.length s) s = s.
Proof. induction s as [|c s IH]; simpl; [reflexivity | now rewrite IH]. Qed.

Lemma substring_append_r (a b : string) :
  substring (String.length a) (String.length b) (a ++ b) = b.
Proof. induction a as [|c a IH]; simpl; [apply substring_whole | exact IH]. Qed.

Lemma ends_with_append (a suffix : string) : ends_with suffix (a ++ suffix) = true.
Proof.
  unfold ends_with. rewrite length_append.
  replace (String.length a + String.length suffix - String.length suffix)%nat
    with (String.length a) by lia.
  rewrite substring_append_r, String.eqb_refl, andb_true_r.
  apply Nat.leb_le. lia.
Qed.

Lemma log_file_name_is_json self ts :
  ends_with ".json" (log_file_name self ts) = true.
Proof.
  unfold log_file_name.
  rewrite <- !append_assoc. apply ends_with_append.
Qed.

(** A logged thought is retrievable: right after [log_thought], a query
    without filters whose [limit] covers the [.json] files of the
    directory returns the record. *)
Theorem logged_is_retrievable self fs now agent act reasoning trace ins outs
    meta limit :
  let fs' :=
    fst (fst (log_thought sha256_hexdigest json_dumps self fs now agent act
                reasoning trace ins outs meta)) in
  (Z.of_nat (List.length (glob_json fs')) <= limit)%Z ->
  In (logged_record now agent act reasoning trace ins outs meta)
    (get_thought_history fs' None None limit).
Proof.
  intros fs' Hlimit. rewrite history_as_filter.
  apply filter_In. split; [|reflexivity].
  rewrite py_take_all by (now rewrite sorted_desc_length).
  unfold records_of. apply in_flat_map.
  exists (log_file_name self now,
          RecordFile (logged_record now agent act reasoning trace ins outs meta)).
  split; [|now left].
  apply sorted_desc_In. unfold glob_json. apply filter_In.
  split; [apply write_file_In | apply log_file_name_is_json].
Qed.

Lemma bump_sum key d :
  list_sum (map snd (bump key d)) = S (list_sum (map snd d)).
Proof.
  induction d as [|[k n] d IH]; simpl; [reflexivity|].
  destruct (String.eqb k key); simpl; [reflexivity | rewrite IH; lia].
Qed.

(** A record whose trace has the key ['epi']. *)
Definition has_epi (r : ThoughtRecord) : bool :=
  match dict_get "epi" (epi_trace r) with Some _ => true | None => false end.

Lemma tally_step_counts t r t' :
  tally_step t r = Some t' ->
  list_sum (map snd (t_agents t')) = S (list_sum (map snd (t_agents t)))
  /\ list_sum (map snd (t_actions t')) = S (list_sum (map snd (t_actions t)))
  /\ (t_approved t' + t_rejected t'
      = t_approved t + t_rejected t + (if has_epi r then 1 else 0))%nat.
Proof.
  unfold tally_step, has_epi.
  destruct (dict_get "epi" (epi_trace r)) as [v|].
  - destruct (as_addend v) as [x|]; [|discriminate].
    destruct (dict_get "reason" (epi_trace r)) as [[| | | |s| |]|];
      try discriminate;
      [destruct (prefix "approved" s)|];
      intros H; injection H as <-; simpl; rewrite !bump_sum;
      repeat split; lia.
  - intros H; injection H as <-; simpl. rewrite !bump_sum.
    repeat split; lia.
Qed.

Lemma tally_all_counts records : forall t t',
  tally_all t records = Some t' ->
  list_sum (map snd (t_agents t'))
    = (list_sum (map snd (t_agents t)) + List.length records)%nat
  /\ list_sum (map snd (t_actions t'))
     = (list_sum (map snd (t_actions t)) + List.length records)%nat
  /\ (t_approved t' + t_rejected t'
      = t_approved t + t_rejected t
        + List.length (filter has_epi records))%nat.
Proof.
  induction records as [|r records IH]; intros t t'; simpl.
  - intros H; injection H as <-. repeat split; lia.
  - destruct (tally_step t r) as [t1|] eqn:Hs; [|discriminate].
    intros H. destruct (IH _ _ H) as (Ha & Hb & Hc).
    destruct (tally_step_counts _ _ _ Hs) as (Ha1 & Hb1 & Hc1).
    rewrite Ha, Hb, Hc, Ha1, Hb1, Hc1.
    destruct (has_epi r); simpl; repeat split; lia.
Qed.

(** A plain file name: not empty, not ['.'] or ['..'], and without a
    ['/'] or a NUL byte. *)
Definition plain_name (s : string) : bool :=
  negb (contains Ascii.zero s) && negb (contains "/" s)
  && negb (String.eqb s "") && negb (String.eqb s ".")
  && negb (String.eqb s "..").

Lemma components_plain s : contains "/" s = false -> components s = [s].
Proof.
  induction s as [|c s IH]; [reflexivity|].
  cbn [contains components]. intros H.
  apply orb_false_elim in H as [Hc Hs].
  rewrite Hc, (IH Hs). reflexivity.
Qed.

Lemma prefix_slash s : contains "/" s = false -> prefix "/" s = false.
Proof.
  destruct s as [|c s]; [reflexivity|].
  cbn [contains prefix]. intros H.
  apply orb_false_elim in H as [Hc _].
  destruct (ascii_dec "/" c) as [<-|]; [discriminate Hc | reflexivity].
Qed.

(** The file system beyond the log directory. *)
Variable outside : string -> target.

(** A plain name is the file of that name in the log directory. *)
Lemma plain_name_target s :
  plain_name s = true -> report_target outside s = LogFile s.
Proof.
  unfold plain_name, report_target, parts. intros H.
  repeat (apply andb_prop in H as [H ?]).
  repeat match goal with
         | Hx : negb _ = true |- _ => apply negb_true_iff in Hx
         end.
  rewrite H, (prefix_slash s), (components_plain s) by assumption.
  cbn [filter]. rewrite H1, H2. cbn [negb andb]. now rewrite H0.
Qed.


(** Paths that never open, and one that pathlib reads as a plain name. *)
Lemma report_paths :
  report_target outside "" = NoFile
  /\ report_target outside "." = NoFile
  /\ report_target outside "./" = NoFile
  /\ report_target outside ".." = NoFile
  /\ report_target outside "reports/audit.json" = NoFile
  /\ report_target outside "./audit.json" = LogFile "audit.json"
  /\ report_target outside "audit_report.json" = LogFile "audit_report.json"
  /\ report_target outside "../audit.json" = outside "../audit.json"
  /\ report_target outside "/tmp/audit.json" = outside "/tmp/audit.json".
Proof. repeat split. Qed.

(** When [generate_audit_report] returns, its numbers add up: the report
    counts the (at most [10000]) records of the unfiltered history; the
    per-agent counts and the per-action counts each sum to that total;
    [approved] plus [rejected] is the number of records whose trace has
    an ['epi'] entry; and the report is in the log directory under the
    name the path leads to, which for a plain [output_file] is
    [output_file] itself, the directory being otherwise as it was; a
    path that leads out of the log directory leaves it unchanged. *)
Theorem audit_report_counts self fs now output_file report fs' :
  generate_audit_report json_dumps_report outside self fs now output_file
    = Some (report, fs') ->
  let records := get_thought_history fs None None 10000 in
  total_records report = List.length records
  /\ (Z.of_nat (total_records report) <= 10000)%Z
  /\ list_sum (map snd (agent_counts report)) = total_records report
  /\ list_sum (map snd (action_counts report)) = total_records report
  /\ (approved (epi_statistics report) + rejected (epi_statistics report)
      = List.length (filter has_epi records))%nat
  /\ (approved (epi_statistics report) + rejected (epi_statistics report)
      <= total_records report)%nat
  /\ match report_target outside output_file with
     | LogFile name =>
         read_file name fs' = Some (OtherFile (json_dumps_report report))
         /\ forall other, other <> name ->
              read_file other fs' = read_file other fs
     | Elsewhere => fs' = fs
     | NoFile => False
     end
  /\ (plain_name output_file = true ->
      read_file output_file fs'
      = Some (OtherFile (json_dumps_report report))).
Proof.
  unfold generate_audit_report. intros H. cbv zeta.
  set (records := get_thought_history fs None None 10000) in *.
  destruct (tally_all empty_tally records) as [t|] eqn:Ht; [|discriminate].
  assert (Hw : match report_target outside output_file with
               | LogFile name =>
                   fs' = write_file name
                           (OtherFile (json_dumps_report report)) fs
               | Elsewhere => fs' = fs
               | NoFile => False
               end
               /\ report =
                  {| r_session_id := session_id self;
                     total_records := List.length records;
                     agent_counts := t_agents t;
                     action_counts := t_actions t;
                     epi_statistics :=
                       {| approved := t_approved t;
                          rejected := t_rejected t;
                          avg_epi :=
                            match records with
                            | [] => 0%float
                            | _ =>
                                (t_total_epi t
                                 / of_uint63
                                     (Uint63.of_Z
                                        (Z.of_nat (List.length records))))%float
                            end |};
                     generated_at := now |}).
  { destruct (report_target outside output_file);
      [injection H as <- <- | injection H as <- <- | discriminate H];
      split; reflexivity. }
  clear H. destruct Hw as [Hw ->].
  cbn [total_records agent_counts action_counts epi_statistics approved
       rejected].
  destruct (tally_all_counts _ _ _ Ht) as (Ha & Hb & Hc). simpl in Ha, Hb, Hc.
  split; [reflexivity|].
  split.
  { pose proof (history_length_le fs None None 10000 ltac:(lia)) as Hl.
    fold records in Hl. lia. }
  split; [exact Ha|]. split; [exact Hb|]. split; [exact Hc|].
  split; [rewrite Hc; apply filter_length_le|].
  split.
  - destruct (report_target outside output_file) as [name| |];
      [|exact Hw | exact Hw].
    subst fs'. split; [apply read_write_same|].
    intros other Hne. apply read_write_other.
    intros E. apply Hne. now symmetry.
  - intros Hp. rewrite (plain_name_target _ Hp) in Hw. subst fs'.
    apply read_write_same.
Qed.




End AuditLog.

(** The theorems of the audit log hold for every digest and every
    serializer; their examples use these stand-ins. *)
Definition example_digest (text : string) : string := text.

Definition example_dumps (r : Logger.ThoughtRecord) : string :=
  (Logger.agent_id r ++ ":" ++ Logger.reasoning r)%string.

Definition example_dumps_report (r : Logger.AuditReport) : string :=
  Logger.r_session_id r.

(** A file system in which a path that leaves the log directory leads to
    a file elsewhere. *)
Definition example_outside (path : string) : Logger.target := Logger.Elsewhere.

Definition example_logger : Logger.ThoughtLogger :=
  {| Logger.enable_ipfs := false; Logger.session_id := "0123456789abcdef" |}.

Definition example_trace : list (string * Logger.json) :=
  [("epi", Logger.JFloat 0.82); ("hmean", Logger.JFloat 0.88);
   ("reason", Logger.JStr "approved")]%string.

(** The two calls of the demo of [logger.py], one second apart. *)
Definition example_directory : Logger.directory :=
  let fs1 :=
    fst (fst (Logger.log_thought example_digest example_dumps example_logger
                [] 1700000000 "CEO-AI" "strategic_proposal"
                "Market analysis" example_trace [] [] None)) in
  fst (fst (Logger.log_thought example_digest example_dumps example_logger
              fs1 1700000001 "CFO-AI" "budget_allocation"
              "Q4 revenue" example_trace [] [] None)).

Lemma distinct_seconds_keep_both_witness :
  Logger.read_file (Logger.log_file_name example_logger 1700000000)
    example_directory
  = Some (Logger.RecordFile
            (logged_record 1700000000 "CEO-AI" "strategic_proposal"
               "Market analysis" example_trace [] [] None)).
Proof.
  refine (proj1 (distinct_seconds_keep_both example_digest example_dumps
                   example_logger [] 1700000000 1700000001
                   "CEO-AI" "strategic_proposal" "Market analysis"
                   example_trace [] [] None
                   "CFO-AI" "budget_allocation" "Q4 revenue"
                   example_trace [] [] None _)).
  discriminate.
Defined.

Lemma logged_is_retrievable_witness :
  In (logged_record 1700000001 "CFO-AI" "budget_allocation" "Q4 revenue"
        example_trace [] [] None)
     (Logger.get_thought_history example_directory None None 100).
Proof.
  refine (logged_is_retrievable example_digest example_dumps example_logger
            _ 1700000001 "CFO-AI" "budget_allocation" "Q4 revenue"
            example_trace [] [] None 100 _).
  vm_compute. discriminate.
Defined.

Lemma audit_report_counts_witness :
  match
    Logger.generate_audit_report example_dumps_report example_outside
      example_logger example_directory 1700000002 "audit_report.json"
  with
  | Some (report, fs') =>
      list_sum (map snd (Logger.agent_counts report))
      = Logger.total_records report
      /\ Logger.total_records report = 2%nat
      /\ Logger.read_file "audit_report.json" fs'
         = Some (Logger.OtherFile (example_dumps_report report))
  | None => False
  end.
Proof.
  destruct (Logger.generate_audit_report example_dumps_report example_outside
              example_logger example_directory 1700000002 "audit_report.json")
    as [[report fs']|] eqn:H.
  - pose proof (audit_report_counts example_dumps_report example_outside
                  example_logger example_directory 1700000002
                  "audit_report.json" report fs' H)
      as (Hn & _ & Ha & _ & _ & _ & _ & Hp).
    split; [exact Ha|]. split; [exact Hn | exact (Hp eq_refl)].
  - vm_compute in H. discriminate H.
Defined.

(** ** Deviation and risk score ranges *)

Section Ranges.
Import Py Calculator Validator.

Lemma not_negative_not_below_zero x :
  not_negative (Prim2SF x) -> (x <? 0) = false.
Proof.
  rewrite ltb_spec, Prim2SF_zero.
  intros [-> | [[s ->] | [(m & e & ->) | ->]]]; reflexivity.
Qed.

(** The golden-ratio deviation is never negative, and it is [+inf] when
    the ethics score is zero. *)
Theorem golden_ratio_deviation_not_negative p e :
  (golden_ratio_deviation p e <? 0) = false
  /\ ((e =? 0) = true -> golden_ratio_deviation p e = infinity).
Proof.
  unfold golden_ratio_deviation, min.
  destruct (e =? 0); [split; reflexivity|].
  split; [|discriminate].
  cbv zeta.
  match goal with
  | |- ((if ?c then _ else _) <? 0) = false => destruct c
  end; apply not_negative_not_below_zero;
    rewrite abs_spec; apply SFabs_not_negative.
Qed.

Lemma float_not_above_one x :
  (0 <=? x) = true -> (1 <? x) = false -> (x <=? 1) = true.
Proof.
  intros H0. rewrite ltb_spec, leb_spec, Prim2SF_one.
  destruct (float_nonneg_cases x H0) as [[s ->] | [(m & e & ->) | ->]].
  - reflexivity.
  - apply SFltb_false_SFleb.
  - discriminate.
Qed.

(** With an exposure that is absent or not negative, however large, the
    risk score lies in [[0, 1]]. *)
Theorem risk_score_range intent :
  (forall x, exposure_ratio intent = Some x -> (0 <=? x) = true) ->
  (0 <=? intent_risk_score intent) = true
  /\ (intent_risk_score intent <=? 1) = true.
Proof.
  intros Hx. unfold intent_risk_score, min, get.
  destruct (exposure_ratio intent) as [x|]; [|split; reflexivity].
  specialize (Hx x eq_refl).
  destruct (1 <? x) eqn:H1; [split; reflexivity|].
  apply float_unit_bounds, float_sub_unit; [exact Hx|].
  now apply float_not_above_one.
Qed.

Lemma risk_score_range_witness :
  (0 <=? intent_risk_score valid_intent) = true
  /\ (intent_risk_score valid_intent <=? 1) = true.
Proof.
  apply (risk_score_range valid_intent).
  intros x H. injection H as <-. reflexivity.
Defined.

(** [validate_intent] never raises, although [compute_epi] can: the
    ethics it passes is always a NumPy scalar, also when it is NaN or the
    opposite of the profit. *)
Theorem pipeline_never_raises self intent :
  (exists d, validate_intent self intent = Some d)
  /\ is_np (ethics (intent_scores intent)) = true
  /\ exists scores,
       val (profit scores) = 0.5 /\ val (ethics scores) = -0.5
       /\ compute_epi (epi_calc self) scores false = None.
Proof.
  split; [|split; [reflexivity|]].
  - apply validate_intent_total.
  - exists (mkScores (PyF 0.5) (PyF (-0.5)) []).
    repeat split.
Qed.
End Ranges.
